(** * SingleAxisStage: the stage controller of the Thorlabs Kinesis adapter

    A shallow embedding of [SingleAxisStage.cpp]: the unit conversion
    ([clamp], [clamp_int], [SetPositionUm]), the lifecycle
    ([Initialize], [Shutdown]) and the motion methods ([Busy], [Home],
    [SetPositionSteps]), over an explicit model of the calls the class
    makes on its [MotorDrive] and on the host. *)

From Stdlib Require Import ZArith Lia Bool List String QArith Qabs.
From Stdlib Require Import DecimalString DecimalZ DecimalPos.
From Stdlib Require Import Floats.SpecFloat.
Import ListNotations.

Local Open Scope Z_scope.

(** ** C++ [double]: IEEE 754 binary64 *)

Module Double.

Definition prec : Z := 53.
Definition emax : Z := 1024.

(** A double is given by sign, mantissa and exponent: the finite
    [S754_finite s m e] denotes [(-1)^s * m * 2^e].  Products and
    quotients are the correctly rounded ones; comparisons and the
    conversions to integers go by the denoted value, so they do not
    depend on the mantissa being normalised. *)
Definition double := spec_float.

Definition mul : double -> double -> double := SFmul prec emax.
Definition div : double -> double -> double := SFdiv prec emax.

(** Conversion of an integer to [double] (round to nearest even;
    exact below 2^53). *)
Definition of_Z (n : Z) : double := binary_normalize prec emax n 0 false.

(** The literal [m * 2^e]. *)
Definition of_bits (m e : Z) : double := binary_normalize prec emax m e false.

(** Comparison of [m1 * 2^e1] with [m2 * 2^e2]. *)
Definition magnitude_compare (m1 : positive) (e1 : Z) (m2 : positive) (e2 : Z)
  : comparison :=
  let e := Z.min e1 e2 in
  (Zpos m1 * 2 ^ (e1 - e) ?= Zpos m2 * 2 ^ (e2 - e)).

(** The IEEE comparison: [None] when either side is NaN. *)
Definition compare (x y : double) : option comparison :=
  match x, y with
  | S754_nan, _ | _, S754_nan => None
  | S754_infinity s1, S754_infinity s2 =>
      Some match s1, s2 with
           | true, true | false, false => Eq
           | true, false => Lt
           | false, true => Gt
           end
  | S754_infinity s, _ => Some (if s then Lt else Gt)
  | _, S754_infinity s => Some (if s then Gt else Lt)
  | S754_finite s _ _, S754_zero _ => Some (if s then Lt else Gt)
  | S754_zero _, S754_finite s _ _ => Some (if s then Gt else Lt)
  | S754_zero _, S754_zero _ => Some Eq
  | S754_finite s1 m1 e1, S754_finite s2 m2 e2 =>
      Some match s1, s2 with
           | true, false => Lt
           | false, true => Gt
           | false, false => magnitude_compare m1 e1 m2 e2
           | true, true => CompOpp (magnitude_compare m1 e1 m2 e2)
           end
  end.

(** [operator<]. *)
Definition ltb (x y : double) : bool :=
  match compare x y with
  | Some Lt => true
  | _ => false
  end.

(** [std::round]: the nearest integer, halfway cases away from zero.
    A finite double with a non-negative exponent is an integer already;
    otherwise the magnitude [m * 2^e] is rounded to the integer [q],
    returned as [q * 2^0]. *)
Definition round_magnitude (m : positive) (e : Z) : Z :=
  (Zpos m + 2 ^ (- e - 1)) / 2 ^ (- e).

Definition round (x : double) : double :=
  match x with
  | S754_finite s m e =>
      if 0 <=? e then x
      else match round_magnitude m e with
           | Zpos q => S754_finite s q 0
           | _ => S754_zero s
           end
  | _ => x
  end.

(** The integral part, as [static_cast<int>] takes it (truncation
    toward zero); [None] for NaN and the infinities. *)
Definition trunc (x : double) : option Z :=
  match x with
  | S754_zero _ => Some 0
  | S754_finite s m e =>
      let a := if 0 <=? e then Zpos m * 2 ^ e else Zpos m / 2 ^ (- e) in
      Some (if s then - a else a)
  | _ => None
  end.

(** The rational number a finite double denotes. *)
Definition to_Q (x : double) : option Q :=
  match x with
  | S754_zero _ => Some 0%Q
  | S754_finite s m e =>
      let sm := if s then Zneg m else Zpos m in
      Some (if 0 <=? e then inject_Z (sm * 2 ^ e)
            else sm # Z.to_pos (2 ^ (- e)))
  | _ => None
  end.

End Double.

Definition INT_MIN : Z := -2147483648.
Definition INT_MAX : Z := 2147483647.


(** ** Constants

    [DEVICE_OK], [DEVICE_ERR] and [DEVICE_UNSUPPORTED_COMMAND] are the
    host framework's codes (MMDeviceConstants.h). *)

Definition DEVICE_OK : Z := 0.
Definition DEVICE_ERR : Z := 1.
Definition DEVICE_UNSUPPORTED_COMMAND : Z := 11.

Definition PROPVAL_StageTypeLinear : string := "Linear".
Definition PROPVAL_StageTypeRotational : string := "Rotational".

(** ** Templates [clamp] and [clamp_int]

    The two instantiations in the file are [T = double] (from
    [SetPositionUm]) and [T = long] (from [SetPositionSteps]). *)

Class Numeric (T : Type) := {
  less : T -> T -> bool;            (* operator< *)
  from_int : Z -> T;                (* T{ int } *)
  static_cast_int : T -> option Z   (* static_cast<int>; None where undefined *)
}.

Definition in_int_range (n : Z) : bool := (INT_MIN <=? n) && (n <=? INT_MAX).

(** Conversion of an integer to [int]: the value modulo 2^32. *)
Definition wrap_int (n : Z) : Z := (n - INT_MIN) mod 2 ^ 32 + INT_MIN.

#[global] Instance Numeric_double : Numeric Double.double := {
  less := Double.ltb;
  from_int := Double.of_Z;
  static_cast_int x :=
    match Double.trunc x with
    | Some n => if in_int_range n then Some n else None
    | None => None
    end
}.

#[global] Instance Numeric_long : Numeric Z := {
  less := Z.ltb;
  from_int n := n;
  static_cast_int n := Some (wrap_int n)
}.

Section Templates.
Context {T : Type} `{Numeric T}.

Definition std_min (a b : T) : T := if less b a then b else a.
Definition std_max (a b : T) : T := if less a b then b else a.

Definition clamp (value lower upper : T) : T :=
  std_max lower (std_min upper value).

Definition clamp_int (value : T) : option Z :=
  let lower := from_int INT_MIN in
  let upper := from_int INT_MAX in
  let ret := clamp value lower upper in
  static_cast_int ret.
End Templates.

(** ** Collaborators *)

Record KinesisDeviceConnection := {
  IsValid : bool;
  ConnectionError : Z
}.

Record MotorDrive := {
  GetConnection : KinesisDeviceConnection;
  Channel : Z
}.

(** Every call that leaves the class: the factory functions, the methods
    of [MotorDrive], and the host services. *)
Inductive Call : Type :=
| CallMakeConnection (serialNo : string)
| CallMakeKinesisMotorDrive (channel : Z)
| CallRequestPosition
| CallRequestStatusBits
| CallStartPolling (intervalMs : Z)
| CallStopPolling
| CallIsChannelEnabled
| CallSetChannelEnabled (enabled : bool)
| CallGetStatusBits
| CallMoveToPosition (steps : Z)
| CallCanHome
| CallHome
| CallLogMessage
| CallSleepMs (ms : Z)
| CallCreateFloatProperty (name : string)
| CallGetCurrentMMTime.

(** The log of calls made so far, the most recent first. *)
Definition Log := list Call.

(** What the outside answers.  Each answer may depend on everything that
    was called before, so a [World] stands for one possible behaviour of
    the hardware and of the host over a whole run. *)
Record World := {
  MakeConnection_result : Log -> option KinesisDeviceConnection;
  MakeKinesisMotorDrive_null : Log -> bool;
  short_result : Log -> Call -> Z;
  bool_result : Log -> Call -> bool;
  GetStatusBits_result : Log -> Z;
  GetCurrentMMTime_result : Log -> Z;       (* microseconds *)
  CreateFloatProperty_result : Log -> Z
}.

(** ** The class *)

Record SingleAxisStage := {
  serialNo_ : string;
  channel_ : Z;
  homed_ : bool;
  initialized_ : bool;
  motorDrive_ : option MotorDrive;
  isRotational_ : bool;
  deviceUnitsPerUm_ : Double.double;
  didEnable_ : bool;
  pollingIntervalMs_ : Z;
  lastMovementStart_ : Z;                   (* MM::MMTime, microseconds *)
  (* the pre-init properties created by the constructor *)
  prop_StageType : string;
  prop_DeviceUnitsPerMillimeter : Double.double;
  prop_DeviceUnitsPerRevolution : Double.double
}.

Definition set_homed_ (v : bool) (s : SingleAxisStage) : SingleAxisStage :=
  {| serialNo_ := serialNo_ s; channel_ := channel_ s; homed_ := v;
     initialized_ := initialized_ s; motorDrive_ := motorDrive_ s;
     isRotational_ := isRotational_ s; deviceUnitsPerUm_ := deviceUnitsPerUm_ s;
     didEnable_ := didEnable_ s; pollingIntervalMs_ := pollingIntervalMs_ s;
     lastMovementStart_ := lastMovementStart_ s;
     prop_StageType := prop_StageType s;
     prop_DeviceUnitsPerMillimeter := prop_DeviceUnitsPerMillimeter s;
     prop_DeviceUnitsPerRevolution := prop_DeviceUnitsPerRevolution s |}.

Definition set_initialized_ (v : bool) (s : SingleAxisStage) : SingleAxisStage :=
  {| serialNo_ := serialNo_ s; channel_ := channel_ s; homed_ := homed_ s;
     initialized_ := v; motorDrive_ := motorDrive_ s;
     isRotational_ := isRotational_ s; deviceUnitsPerUm_ := deviceUnitsPerUm_ s;
     didEnable_ := didEnable_ s; pollingIntervalMs_ := pollingIntervalMs_ s;
     lastMovementStart_ := lastMovementStart_ s;
     prop_StageType := prop_StageType s;
     prop_DeviceUnitsPerMillimeter := prop_DeviceUnitsPerMillimeter s;
     prop_DeviceUnitsPerRevolution := prop_DeviceUnitsPerRevolution s |}.

Definition set_motorDrive_ (v : option MotorDrive) (s : SingleAxisStage) : SingleAxisStage :=
  {| serialNo_ := serialNo_ s; channel_ := channel_ s; homed_ := homed_ s;
     initialized_ := initialized_ s; motorDrive_ := v;
     isRotational_ := isRotational_ s; deviceUnitsPerUm_ := deviceUnitsPerUm_ s;
     didEnable_ := didEnable_ s; pollingIntervalMs_ := pollingIntervalMs_ s;
     lastMovementStart_ := lastMovementStart_ s;
     prop_StageType := prop_StageType s;
     prop_DeviceUnitsPerMillimeter := prop_DeviceUnitsPerMillimeter s;
     prop_DeviceUnitsPerRevolution := prop_DeviceUnitsPerRevolution s |}.

Definition set_isRotational_ (v : bool) (s : SingleAxisStage) : SingleAxisStage :=
  {| serialNo_ := serialNo_ s; channel_ := channel_ s; homed_ := homed_ s;
     initialized_ := initialized_ s; motorDrive_ := motorDrive_ s;
     isRotational_ := v; deviceUnitsPerUm_ := deviceUnitsPerUm_ s;
     didEnable_ := didEnable_ s; pollingIntervalMs_ := pollingIntervalMs_ s;
     lastMovementStart_ := lastMovementStart_ s;
     prop_StageType := prop_StageType s;
     prop_DeviceUnitsPerMillimeter := prop_DeviceUnitsPerMillimeter s;
     prop_DeviceUnitsPerRevolution := prop_DeviceUnitsPerRevolution s |}.

Definition set_deviceUnitsPerUm_ (v : Double.double) (s : SingleAxisStage) : SingleAxisStage :=
  {| serialNo_ := serialNo_ s; channel_ := channel_ s; homed_ := homed_ s;
     initialized_ := initialized_ s; motorDrive_ := motorDrive_ s;
     isRotational_ := isRotational_ s; deviceUnitsPerUm_ := v;
     didEnable_ := didEnable_ s; pollingIntervalMs_ := pollingIntervalMs_ s;
     lastMovementStart_ := lastMovementStart_ s;
     prop_StageType := prop_StageType s;
     prop_DeviceUnitsPerMillimeter := prop_DeviceUnitsPerMillimeter s;
     prop_DeviceUnitsPerRevolution := prop_DeviceUnitsPerRevolution s |}.

Definition set_didEnable_ (v : bool) (s : SingleAxisStage) : SingleAxisStage :=
  {| serialNo_ := serialNo_ s; channel_ := channel_ s; homed_ := homed_ s;
     initialized_ := initialized_ s; motorDrive_ := motorDrive_ s;
     isRotational_ := isRotational_ s; deviceUnitsPerUm_ := deviceUnitsPerUm_ s;
     didEnable_ := v; pollingIntervalMs_ := pollingIntervalMs_ s;
     lastMovementStart_ := lastMovementStart_ s;
     prop_StageType := prop_StageType s;
     prop_DeviceUnitsPerMillimeter := prop_DeviceUnitsPerMillimeter s;
     prop_DeviceUnitsPerRevolution := prop_DeviceUnitsPerRevolution s |}.

Definition set_lastMovementStart_ (v : Z) (s : SingleAxisStage) : SingleAxisStage :=
  {| serialNo_ := serialNo_ s; channel_ := channel_ s; homed_ := homed_ s;
     initialized_ := initialized_ s; motorDrive_ := motorDrive_ s;
     isRotational_ := isRotational_ s; deviceUnitsPerUm_ := deviceUnitsPerUm_ s;
     didEnable_ := didEnable_ s; pollingIntervalMs_ := pollingIntervalMs_ s;
     lastMovementStart_ := v;
     prop_StageType := prop_StageType s;
     prop_DeviceUnitsPerMillimeter := prop_DeviceUnitsPerMillimeter s;
     prop_DeviceUnitsPerRevolution := prop_DeviceUnitsPerRevolution s |}.

(** ** Running a method

    A method either returns a value with the new object state and the
    extended log, or runs into undefined behaviour. *)

Inductive Undefined : Type :=
| NullDereference      (* [motorDrive_->...] on an empty unique_ptr *)
| CastOutOfRange.      (* [static_cast<int>] of a double outside [int] *)

Inductive outcome (A : Type) : Type :=
| Returns (a : A) (this : SingleAxisStage) (log : Log)
| Crashes (why : Undefined) (log : Log).
Arguments Returns {A} a this log.
Arguments Crashes {A} why log.

Definition M (A : Type) : Type := World -> SingleAxisStage -> Log -> outcome A.

Definition ret {A} (a : A) : M A := fun _ s t => Returns a s t.

Definition bind {A B} (m : M A) (k : A -> M B) : M B :=
  fun w s t =>
    match m w s t with
    | Returns a s' t' => k a w s' t'
    | Crashes u t' => Crashes u t'
    end.

Declare Scope method_scope.
Delimit Scope method_scope with method.
Notation "x <- m ;; k" := (bind m (fun x => k))
  (at level 61, m at next level, right associativity) : method_scope.
Notation "m ;; k" := (bind m (fun _ => k))
  (at level 61, right associativity) : method_scope.
Local Open Scope method_scope.

Definition this_ : M SingleAxisStage := fun _ s t => Returns s s t.
Definition assign (f : SingleAxisStage -> SingleAxisStage) : M unit :=
  fun _ s t => Returns tt (f s) t.
Definition crash {A} (u : Undefined) : M A := fun _ _ t => Crashes u t.

(** A call answered by the world; the call is appended to the log. *)
Definition ask {A} (c : Call) (answer : World -> Log -> A) : M A :=
  fun w s t => Returns (answer w t) s (c :: t).

(** [motorDrive_->method()]. *)
Definition on_drive {A} (c : Call) (answer : World -> Log -> A) : M A :=
  this <- this_ ;;
  match motorDrive_ this with
  | Some _ => ask c answer
  | None => crash NullDereference
  end.

Definition drive_short (c : Call) : M Z := on_drive c (fun w t => short_result w t c).
Definition drive_bool (c : Call) : M bool := on_drive c (fun w t => bool_result w t c).
Definition drive_void (c : Call) : M unit := on_drive c (fun _ _ => tt).

Definition GetCurrentMMTime : M Z := ask CallGetCurrentMMTime GetCurrentMMTime_result.
Definition SleepMs (ms : Z) : M unit := ask (CallSleepMs ms) (fun _ _ => tt).
Definition LogMessage : M unit := ask CallLogMessage (fun _ _ => tt).
Definition CreateFloatProperty (name : string) : M Z :=
  ask (CallCreateFloatProperty name) CreateFloatProperty_result.

(** [MM::MMTime::getMsec] of a time difference in microseconds. *)
Definition getMsec (us : Z) : Q := us # 1000.

(** ** The methods of [SingleAxisStage] *)

Section Stage.

(** Declared in headers of the adapter that the methods only use:
    [ERR_OFFSET] (Errors.h), the status bit masks of [MotorDrive]
    (MotorDrive.h); and the platform's [sizeof(long)] ([sizeof(int)] is
    4). *)
Variable ERR_OFFSET : Z.
Variables StatusBitsMovingCW StatusBitsMovingCCW : Z.
Variables StatusBitsJoggingCW StatusBitsJoggingCCW : Z.
Variable StatusBitsHoming : Z.
Variable sizeof_long : Z.

Definition sizeof_int : Z := 4.

Definition Connect : M (option MotorDrive) :=
  this <- this_ ;;
  connection <- ask (CallMakeConnection (serialNo_ this)) MakeConnection_result ;;
  match connection with
  | None => ret None
  | Some c =>
      null <- ask (CallMakeKinesisMotorDrive (channel_ this))
                  MakeKinesisMotorDrive_null ;;
      ret (if null then None
           else Some {| GetConnection := c; Channel := channel_ this |})
  end.

Definition Initialize : M Z :=
  this <- this_ ;;
  if initialized_ this then ret DEVICE_OK else
  motorDrive <- Connect ;;
  match motorDrive with
  | None => ret DEVICE_ERR
  | Some md =>
  if negb (IsValid (GetConnection md)) then
    ret (ERR_OFFSET + ConnectionError (GetConnection md))
  else
  assign (set_motorDrive_ (Some md)) ;;
  this <- this_ ;;
  let stageType := prop_StageType this in
  assign (set_isRotational_ (negb (String.eqb stageType PROPVAL_StageTypeLinear))) ;;
  this <- this_ ;;
  (if isRotational_ this then
     let deviceUnitsPerRevolution := prop_DeviceUnitsPerRevolution this in
     assign (set_deviceUnitsPerUm_
               (Double.div deviceUnitsPerRevolution (Double.of_Z 360)))
   else
     let deviceUnitsPerMm := prop_DeviceUnitsPerMillimeter this in
     assign (set_deviceUnitsPerUm_
               (Double.div deviceUnitsPerMm (Double.of_Z 1000)))) ;;
  err <- drive_short CallRequestPosition ;;
  if negb (err =? 0) then ret (ERR_OFFSET + err) else
  err <- drive_short CallRequestStatusBits ;;
  if negb (err =? 0) then ret (ERR_OFFSET + err) else
  this <- this_ ;;
  ok <- drive_bool (CallStartPolling (pollingIntervalMs_ this)) ;;
  (if negb ok then LogMessage else ret tt) ;;
  SleepMs 100 ;;
  enabled <- drive_bool CallIsChannelEnabled ;;
  let finish : M Z :=
    r <- CreateFloatProperty "Position Degrees" ;;
    if negb (r =? DEVICE_OK) then ret r else
    assign (set_initialized_ true) ;;
    ret DEVICE_OK in
  if negb enabled then
    err <- drive_short (CallSetChannelEnabled true) ;;
    if negb (err =? 0) then ret (ERR_OFFSET + err) else
    assign (set_didEnable_ true) ;;
    finish
  else finish
  end.

Definition Shutdown : M Z :=
  this <- this_ ;;
  (if didEnable_ this
   then _ <- drive_short (CallSetChannelEnabled false) ;; ret tt
   else ret tt) ;;
  this <- this_ ;;
  (match motorDrive_ this with
   | Some _ => drive_void CallStopPolling
   | None => ret tt
   end) ;;
  assign (set_motorDrive_ None) ;;
  ret DEVICE_OK.

Definition busy_mask : Z :=
  Z.lor (Z.lor (Z.lor (Z.lor StatusBitsMovingCW StatusBitsMovingCCW)
                      StatusBitsJoggingCW) StatusBitsJoggingCCW)
        StatusBitsHoming.

Definition Busy : M bool :=
  now <- GetCurrentMMTime ;;
  this <- this_ ;;
  let msSinceMovementStart := getMsec (now - lastMovementStart_ this) in
  if Qle_bool msSinceMovementStart (inject_Z (pollingIntervalMs_ this) + 10)
  then ret true else
  status <- on_drive CallGetStatusBits GetStatusBits_result ;;
  ret (negb (Z.land status busy_mask =? 0)).

Definition SetPositionSteps (steps : Z) : M Z :=
  let iSteps : option Z :=
    if sizeof_int <? sizeof_long then clamp_int steps
    else static_cast_int steps in
  match iSteps with
  | None => crash CastOutOfRange
  | Some iSteps =>
      err <- drive_short (CallMoveToPosition iSteps) ;;
      if negb (err =? 0) then ret (ERR_OFFSET + err) else
      now <- GetCurrentMMTime ;;
      assign (set_lastMovementStart_ now) ;;
      ret DEVICE_OK
  end.

Definition SetPositionUm (pos : Double.double) : M Z :=
  this <- this_ ;;
  let dSteps := Double.round (Double.mul pos (deviceUnitsPerUm_ this)) in
  match clamp_int dSteps with
  | None => crash CastOutOfRange
  | Some steps => SetPositionSteps steps
  end.

Definition Home : M Z :=
  canHome <- drive_bool CallCanHome ;;
  if negb canHome then ret DEVICE_UNSUPPORTED_COMMAND else
  let r := DEVICE_OK in
  this <- this_ ;;
  if homed_ this then ret r else
  err <- drive_short CallHome ;;
  if negb (err =? 0) then ret (ERR_OFFSET + err) else
  assign (set_homed_ true) ;;
  now <- GetCurrentMMTime ;;
  assign (set_lastMovementStart_ now) ;;
  ret DEVICE_OK.

End Stage.

(** ** Position read-back and the position property *)

(** [MM::ActionType] of the host's property callbacks. *)
Inductive ActionType : Type :=
| NoAction
| BeforeGet
| AfterSet
| IsSequenceable
| AfterLoadSequence
| StartSequence
| StopSequence.

Section Readback.

Variable ERR_OFFSET : Z.
Variable sizeof_long : Z.

(** What [motorDrive_->GetPositionCounter()] answers, given the calls
    made so far.  It is a read of the drive's polled register; [Call] has
    no entry for it, so the log is left as it is. *)
Variable GetPositionCounter_result : Log -> Z.

Definition GetPositionCounter : M Z :=
  this <- this_ ;;
  match motorDrive_ this with
  | Some _ => fun _ s t => Returns (GetPositionCounter_result t) s t
  | None => crash NullDereference
  end.

(** [int GetPositionSteps(long& steps)]: the result code and [steps]. *)
Definition GetPositionSteps : M (Z * Z) :=
  steps <- GetPositionCounter ;;
  ret (DEVICE_OK, steps).

(** [int GetPositionUm(double& pos)]: the result code and [pos], which
    keeps the value it had when the method returns early. *)
Definition GetPositionUm (pos : Double.double) : M (Z * Double.double) :=
  r <- GetPositionSteps ;;
  let (err, steps) := r in
  if negb (err =? DEVICE_OK) then ret (err, pos) else
  this <- this_ ;;
  let pos := Double.div (Double.of_Z steps) (deviceUnitsPerUm_ this) in
  ret (DEVICE_OK, pos).

(** [int OnPositionChange(MM::PropertyBase* pProp, MM::ActionType eAct)]:
    [requested] is what [pProp->Get] yields, [indeterminate] the value of
    the uninitialised local [pos]; the result is the code and the value
    handed to [pProp->Set], if any.  The two [printf] diagnostics are
    left out. *)
Definition OnPositionChange
    (requested indeterminate : Double.double) (eAct : ActionType)
  : M (Z * option Double.double) :=
  match eAct with
  | BeforeGet =>
      r <- GetPositionUm indeterminate ;;
      ret (DEVICE_OK, Some (snd r))
  | AfterSet =>
      _ <- SetPositionUm ERR_OFFSET sizeof_long requested ;;
      ret (DEVICE_OK, None)
  | _ => ret (DEVICE_OK, None)
  end.

End Readback.

(** ** Naming *)

(** [std::to_string] of an integer: decimal digits, with a minus sign for
    a negative number. *)
Definition to_string (n : Z) : string := NilZero.string_of_int (Z.to_int n).

(** [std::string MakeName(MotorDrive* motorDrive) const], with what
    [motorDrive->GetModelNo()] answers as [modelNo]. *)
Definition MakeName (this : SingleAxisStage) (motorDrive : option MotorDrive)
    (modelNo : string) : string :=
  (let name := EmptyString in
   let name :=
     match motorDrive with
     | Some md =>
         if IsValid (GetConnection md) then name ++ modelNo
         else (name ++ "Error") ++ to_string (ConnectionError (GetConnection md))
     | None => name ++ "Error"
     end in
   let name := name ++ "_" in
   let name := name ++ serialNo_ this in
   if (0 <? channel_ this)%Z then (name ++ "-") ++ to_string (channel_ this)
   else name)%string.


(** Methods called one after the other on the same object. *)
Definition then_ {A B} (m : M A) (k : M B) : M B := bind m (fun _ => k).

(** ** Vocabulary of the statements *)

(** The integer [n] that a double without fractional bits denotes. *)
Definition integral (d : Double.double) (n : Z) : Prop :=
  match d with
  | S754_zero _ => n = 0
  | S754_finite s m e =>
      0 <= e /\ n = (if s then - (Zpos m * 2 ^ e) else Zpos m * 2 ^ e)
  | _ => False
  end.

(** Saturation to the range of [int]. *)
Definition saturate (n : Z) : Z := Z.max INT_MIN (Z.min INT_MAX n).

(** [n] is the integer nearest to [v], the one away from zero when [v]
    lies halfway between two integers. *)
Definition nearest_integer (v : Q) (n : Z) : Prop :=
  (Qabs (inject_Z n - v) <= 1 # 2)%Q
  /\ ((Qabs (inject_Z n - v) == 1 # 2)%Q -> (Qabs v < Qabs (inject_Z n))%Q).

(** The targets of the [MoveToPosition] commands in a log, the most recent
    first. *)
Definition moves (log : Log) : list Z :=
  flat_map (fun c => match c with CallMoveToPosition n => [n] | _ => [] end) log.

(** ** Concrete objects and worlds used in the examples *)

Module Example.

(** Instances of the constants the methods are parameterised by: an
    error offset, the status bits of the Kinesis motor API, and a
    4-byte [long]. *)
Definition ERR_OFFSET : Z := 10000.
Definition MovingCW : Z := 0x10.
Definition MovingCCW : Z := 0x20.
Definition JoggingCW : Z := 0x40.
Definition JoggingCCW : Z := 0x80.
Definition Homing : Z := 0x200.
Definition sizeof_long : Z := 4.

Definition Initialize := Initialize ERR_OFFSET.
Definition Busy := Busy MovingCW MovingCCW JoggingCW JoggingCCW Homing.
Definition SetPositionSteps := SetPositionSteps ERR_OFFSET sizeof_long.
Definition SetPositionUm := SetPositionUm ERR_OFFSET sizeof_long.
Definition Home := Home ERR_OFFSET.

(** An object as the constructor leaves it: nothing held, nothing
    enabled, default properties of a generic linear stage. *)
Definition fresh : SingleAxisStage :=
  {| serialNo_ := "70000001"; channel_ := 1;
     homed_ := false; initialized_ := false; motorDrive_ := None;
     isRotational_ := false; deviceUnitsPerUm_ := Double.of_Z 1;
     didEnable_ := false; pollingIntervalMs_ := 200;
     lastMovementStart_ := 0;
     prop_StageType := PROPVAL_StageTypeLinear;
     prop_DeviceUnitsPerMillimeter := Double.of_Z 1000;
     prop_DeviceUnitsPerRevolution := Double.of_Z 360 |}.

Definition linear_1228800 : SingleAxisStage :=
  {| serialNo_ := "70000001"; channel_ := 1;
     homed_ := false; initialized_ := false; motorDrive_ := None;
     isRotational_ := false; deviceUnitsPerUm_ := Double.of_Z 1;
     didEnable_ := false; pollingIntervalMs_ := 200;
     lastMovementStart_ := 0;
     prop_StageType := PROPVAL_StageTypeLinear;
     prop_DeviceUnitsPerMillimeter := Double.of_Z 1228800;
     prop_DeviceUnitsPerRevolution := Double.of_Z 360 |}.

Definition rotational_49152000 : SingleAxisStage :=
  {| serialNo_ := "55000001"; channel_ := 0;
     homed_ := false; initialized_ := false; motorDrive_ := None;
     isRotational_ := true; deviceUnitsPerUm_ := Double.of_Z 1;
     didEnable_ := false; pollingIntervalMs_ := 200;
     lastMovementStart_ := 0;
     prop_StageType := PROPVAL_StageTypeRotational;
     prop_DeviceUnitsPerMillimeter := Double.of_Z 1000;
     prop_DeviceUnitsPerRevolution := Double.of_Z 49152000 |}.

Definition good_connection : KinesisDeviceConnection :=
  {| IsValid := true; ConnectionError := 0 |}.

Definition drive1 : MotorDrive :=
  {| GetConnection := good_connection; Channel := 1 |}.

(** Hardware on which everything succeeds; the channel starts
    disabled, the motor is idle, the clock advances by one second per
    call. *)
Definition cooperative : World :=
  {| MakeConnection_result := fun _ => Some good_connection;
     MakeKinesisMotorDrive_null := fun _ => false;
     short_result := fun _ _ => 0;
     bool_result := fun _ c =>
       match c with CallIsChannelEnabled => false | _ => true end;
     GetStatusBits_result := fun _ => 0;
     GetCurrentMMTime_result := fun t => 1000000 * Z.of_nat (List.length t);
     CreateFloatProperty_result := fun _ => DEVICE_OK |}.

(** The connection cannot be opened: vendor error 5. *)
Definition no_device : World :=
  {| MakeConnection_result :=
       fun _ => Some {| IsValid := false; ConnectionError := 5 |};
     MakeKinesisMotorDrive_null := fun _ => false;
     short_result := fun _ _ => 0;
     bool_result := fun _ _ => true;
     GetStatusBits_result := fun _ => 0;
     GetCurrentMMTime_result := fun _ => 0;
     CreateFloatProperty_result := fun _ => DEVICE_OK |}.

(** The connection opens, every command of type [short] is rejected
    with vendor error 5. *)
Definition rejecting : World :=
  {| MakeConnection_result := fun _ => Some good_connection;
     MakeKinesisMotorDrive_null := fun _ => false;
     short_result := fun _ _ => 5;
     bool_result := fun _ c =>
       match c with CallIsChannelEnabled => false | _ => true end;
     GetStatusBits_result := fun _ => 0;
     GetCurrentMMTime_result := fun t => 1000000 * Z.of_nat (List.length t);
     CreateFloatProperty_result := fun _ => DEVICE_OK |}.

(** As [cooperative], but the device reports that it cannot home. *)
Definition cannot_home : World :=
  {| MakeConnection_result := fun _ => Some good_connection;
     MakeKinesisMotorDrive_null := fun _ => false;
     short_result := fun _ _ => 0;
     bool_result := fun _ _ => false;
     GetStatusBits_result := fun _ => 0;
     GetCurrentMMTime_result := fun t => 1000000 * Z.of_nat (List.length t);
     CreateFloatProperty_result := fun _ => DEVICE_OK |}.

(** As [cooperative], but the status bits report a clockwise move. *)
Definition moving : World :=
  {| MakeConnection_result := fun _ => Some good_connection;
     MakeKinesisMotorDrive_null := fun _ => false;
     short_result := fun _ _ => 0;
     bool_result := fun _ c =>
       match c with CallIsChannelEnabled => false | _ => true end;
     GetStatusBits_result := fun _ => MovingCW;
     GetCurrentMMTime_result := fun t => 1000000 * Z.of_nat (List.length t);
     CreateFloatProperty_result := fun _ => DEVICE_OK |}.

(** A ready object holding [drive1]. *)
Definition ready : SingleAxisStage :=
  set_initialized_ true (set_didEnable_ true (set_motorDrive_ (Some drive1) fresh)).

End Example.


(** Further worlds and objects for the examples. *)

Module Example2.

(** As [Example.cooperative], but polling cannot be started. *)
Definition no_polling : World :=
  {| MakeConnection_result := fun _ => Some Example.good_connection;
     MakeKinesisMotorDrive_null := fun _ => false;
     short_result := fun _ _ => 0;
     bool_result := fun _ c =>
       match c with
       | CallIsChannelEnabled | CallStartPolling _ => false
       | _ => true
       end;
     GetStatusBits_result := fun _ => 0;
     GetCurrentMMTime_result := fun t => 1000000 * Z.of_nat (List.length t);
     CreateFloatProperty_result := fun _ => DEVICE_OK |}.

(** As [Example.cooperative], but the clock advances by 100 ms per call. *)
Definition quick : World :=
  {| MakeConnection_result := fun _ => Some Example.good_connection;
     MakeKinesisMotorDrive_null := fun _ => false;
     short_result := fun _ _ => 0;
     bool_result := fun _ c =>
       match c with CallIsChannelEnabled => false | _ => true end;
     GetStatusBits_result := fun _ => 0;
     GetCurrentMMTime_result := fun t => 100000 * Z.of_nat (List.length t);
     CreateFloatProperty_result := fun _ => DEVICE_OK |}.

(** A linear stage configured with zero device units per millimetre. *)
Definition zero_scale : SingleAxisStage :=
  {| serialNo_ := "70000001"; channel_ := 1;
     homed_ := false; initialized_ := false; motorDrive_ := None;
     isRotational_ := false; deviceUnitsPerUm_ := Double.of_Z 1;
     didEnable_ := false; pollingIntervalMs_ := 200;
     lastMovementStart_ := 0;
     prop_StageType := PROPVAL_StageTypeLinear;
     prop_DeviceUnitsPerMillimeter := S754_zero false;
     prop_DeviceUnitsPerRevolution := Double.of_Z 360 |}.

(** The second channel of the device of [Example.fresh]. *)
Definition second_channel : SingleAxisStage :=
  {| serialNo_ := "70000001"; channel_ := 2;
     homed_ := false; initialized_ := false; motorDrive_ := None;
     isRotational_ := false; deviceUnitsPerUm_ := Double.of_Z 1;
     didEnable_ := false; pollingIntervalMs_ := 200;
     lastMovementStart_ := 0;
     prop_StageType := PROPVAL_StageTypeLinear;
     prop_DeviceUnitsPerMillimeter := Double.of_Z 1000;
     prop_DeviceUnitsPerRevolution := Double.of_Z 360 |}.

(** An object that ran Initialize and Shutdown once. *)
Definition after_cycle : SingleAxisStage := set_motorDrive_ None Example.ready.

Definition OnPositionChange :=
  OnPositionChange Example.ERR_OFFSET Example.sizeof_long.

End Example2.

(** Worlds in which one step of the setup fails. *)

Module Example3.

(** As [Example.cooperative], with the answers of type [short] given by
    [short] and the result of the property creation by [created]. *)
Definition answering (short : Call -> Z) (created : Z) : World :=
  {| MakeConnection_result := fun _ => Some Example.good_connection;
     MakeKinesisMotorDrive_null := fun _ => false;
     short_result := fun _ c => short c;
     bool_result := fun _ c =>
       match c with CallIsChannelEnabled => false | _ => true end;
     GetStatusBits_result := fun _ => 0;
     GetCurrentMMTime_result := fun t => 1000000 * Z.of_nat (List.length t);
     CreateFloatProperty_result := fun _ => created |}.

(** [RequestStatusBits] is rejected with vendor error 7. *)
Definition status_request_fails : World :=
  answering (fun c => match c with CallRequestStatusBits => 7 | _ => 0 end)
    DEVICE_OK.

(** [SetChannelEnabled(true)] is rejected with vendor error 8. *)
Definition enable_fails : World :=
  answering (fun c => match c with CallSetChannelEnabled true => 8 | _ => 0 end)
    DEVICE_OK.

(** The host refuses to create the position property, with code 3. *)
Definition property_fails : World := answering (fun _ => 0) 3.

(** [MoveToPosition] is accepted for every target but 90, which is
    rejected with vendor error 5. *)
Definition rejects_90 : World :=
  answering (fun c => match c with CallMoveToPosition 90 => 5 | _ => 0 end)
    DEVICE_OK.

End Example3.

(** * Properties *)

#[local] Ltac unfold_methods :=
  unfold then_, Initialize, Shutdown, Home, Busy, SetPositionSteps, SetPositionUm,
    Connect, drive_short, drive_bool, drive_void, on_drive, ask,
    GetCurrentMMTime, SleepMs, LogMessage, CreateFloatProperty,
    bind, ret, this_, assign, crash.

#[local] Ltac simp_run :=
  cbn -[Z.eqb Z.add Z.mul Z.sub String.eqb Double.div Double.mul Double.round
        Double.of_Z Qle_bool clamp_int] in *.

(** ** Unit conversion: [clamp_int] *)

Section Conversion.

Lemma saturate_in_range (n : Z) : INT_MIN <= saturate n <= INT_MAX.
Proof. unfold saturate, INT_MIN, INT_MAX. lia. Qed.

Lemma saturate_id (n : Z) : INT_MIN <= n <= INT_MAX -> saturate n = n.
Proof. unfold saturate. lia. Qed.

Lemma upper_bits : Double.of_Z INT_MAX = S754_finite false 9007199250546688 (-22).
Proof. reflexivity. Qed.

Lemma lower_bits : Double.of_Z INT_MIN = S754_finite true 4503599627370496 (-21).
Proof. reflexivity. Qed.

Lemma clamp_int_long (n : Z) : clamp_int (T := Z) n = Some (saturate n).
Proof.
  unfold clamp_int, clamp, std_max, std_min, saturate; cbn [less from_int
    static_cast_int Numeric_long].
  destruct (Z.ltb_spec n INT_MAX); destruct (Z.ltb_spec INT_MIN n);
    try (destruct (Z.ltb_spec INT_MIN INT_MAX));
    f_equal; unfold wrap_int, INT_MIN, INT_MAX in *;
    change (2 ^ 32) with 4294967296;
    try lia.
  all: try (match goal with |- (?a mod ?b) + _ = _ =>
         rewrite (Z.mod_small a b) by lia end; lia).
Qed.

Lemma cast_upper :
  static_cast_int (T := Double.double)
    (S754_finite false 9007199250546688 (-22)) = Some INT_MAX.
Proof. reflexivity. Qed.

Lemma cast_lower :
  static_cast_int (T := Double.double)
    (S754_finite true 4503599627370496 (-21)) = Some INT_MIN.
Proof. reflexivity. Qed.

Lemma cast_integral (s : bool) (m : positive) (e : Z) :
  0 <= e ->
  let n := if s then - (Zpos m * 2 ^ e) else Zpos m * 2 ^ e in
  INT_MIN <= n <= INT_MAX ->
  static_cast_int (T := Double.double) (S754_finite s m e) = Some n.
Proof.
  intros He n Hn. cbn [static_cast_int Numeric_double Double.trunc].
  apply Z.leb_le in He. rewrite He. fold n.
  unfold in_int_range.
  destruct Hn as [H1 H2]. apply Z.leb_le in H1, H2. now rewrite H1, H2.
Qed.

Lemma ltb_upper (m : positive) (e : Z) :
  0 <= e ->
  Double.ltb (S754_finite false m e) (S754_finite false 9007199250546688 (-22))
  = (Zpos m * 2 ^ e <? INT_MAX).
Proof.
  intros He. pose proof (Z.pow_pos_nonneg 2 e ltac:(lia) He) as Hp.
  unfold Double.ltb. cbn [Double.compare].
  unfold Double.magnitude_compare. rewrite Z.min_r by lia.
  replace (e - -22) with (e + 22) by lia. rewrite Z.pow_add_r by lia.
  replace (-22 - -22) with 0 by lia.
  change (2 ^ 22) with 4194304. change (2 ^ 0) with 1. unfold INT_MAX.
  destruct (Z.compare_spec (Zpos m * (2 ^ e * 4194304)) (9007199250546688 * 1));
    destruct (Z.ltb_spec (Zpos m * 2 ^ e) 2147483647); try reflexivity; lia.
Qed.

Lemma ltb_lower (m : positive) (e : Z) :
  0 <= e ->
  Double.ltb (S754_finite true 4503599627370496 (-21)) (S754_finite true m e)
  = (INT_MIN <? - (Zpos m * 2 ^ e)).
Proof.
  intros He. pose proof (Z.pow_pos_nonneg 2 e ltac:(lia) He) as Hp.
  unfold Double.ltb. cbn [Double.compare].
  unfold Double.magnitude_compare. rewrite Z.min_l by lia.
  replace (e - -21) with (e + 21) by lia. rewrite Z.pow_add_r by lia.
  replace (-21 - -21) with 0 by lia.
  change (2 ^ 21) with 2097152. change (2 ^ 0) with 1. unfold INT_MIN.
  destruct (Z.compare_spec (4503599627370496 * 1) (Zpos m * (2 ^ e * 2097152)));
    destruct (Z.ltb_spec (-2147483648) (- (Zpos m * 2 ^ e)));
    try reflexivity; lia.
Qed.

(** On a double without fractional bits [clamp_int] is saturation of the
    integer it denotes. *)
Lemma clamp_int_double (d : Double.double) (n : Z) :
  integral d n -> clamp_int d = Some (saturate n).
Proof.
  unfold clamp_int, clamp, std_max, std_min.
  cbn [less from_int Numeric_double].
  rewrite upper_bits, lower_bits.
  destruct d as [s| | |s m e]; cbn [integral]; try contradiction.
  - intros ->. destruct s; reflexivity.
  - intros [He ->]. pose proof (Z.pow_pos_nonneg 2 e ltac:(lia) He) as Hp.
    destruct s.
    + (* negative: below the upper bound, compared with the lower one *)
      change (Double.ltb (S754_finite true m e)
                (S754_finite false 9007199250546688 (-22))) with true.
      cbv iota. rewrite ltb_lower by assumption.
      destruct (Z.ltb_spec INT_MIN (- (Zpos m * 2 ^ e))).
      * rewrite (cast_integral true m e He) by (unfold INT_MIN, INT_MAX in *; lia).
        f_equal. unfold saturate, INT_MIN, INT_MAX in *. lia.
      * rewrite cast_lower. f_equal. unfold saturate, INT_MIN, INT_MAX in *. lia.
    + (* positive: compared with the upper bound, above the lower one *)
      rewrite ltb_upper by assumption.
      destruct (Z.ltb_spec (Zpos m * 2 ^ e) INT_MAX).
      * change (Double.ltb (S754_finite true 4503599627370496 (-21))
                  (S754_finite false m e)) with true.
        cbv iota.
        rewrite (cast_integral false m e He) by (unfold INT_MIN, INT_MAX in *; lia).
        f_equal. unfold saturate, INT_MIN, INT_MAX in *. lia.
      * change (Double.ltb (S754_finite true 4503599627370496 (-21))
                  (S754_finite false 9007199250546688 (-22))) with true.
        cbv iota.
        rewrite cast_upper. f_equal. unfold saturate, INT_MIN, INT_MAX in *. lia.
Qed.

Lemma nearest_integer_exact (n : Z) : nearest_integer (inject_Z n) n.
Proof.
  unfold nearest_integer, Qle, Qlt, Qeq, Qabs, Qminus, Qplus, Qopp, inject_Z.
  cbn [Qnum Qden]. split; lia.
Qed.

Lemma round_magnitude_bounds (m : positive) (e : Z) :
  e < 0 ->
  let q := Double.round_magnitude m e in
  let h := 2 ^ (- e - 1) in
  0 <= q /\ 2 ^ (- e) = 2 * h /\ 0 < h
  /\ Zpos m - h < q * (2 * h) <= Zpos m + h.
Proof.
  intros He q h. subst q h. unfold Double.round_magnitude.
  assert (Hh : 0 < 2 ^ (- e - 1)) by (apply Z.pow_pos_nonneg; lia).
  assert (HD : 2 ^ (- e) = 2 * 2 ^ (- e - 1)).
  { replace (- e) with (1 + (- e - 1)) at 1 by lia.
    rewrite Z.pow_add_r by lia. reflexivity. }
  rewrite HD.
  pose proof (Z.div_mod (Zpos m + 2 ^ (- e - 1)) (2 * 2 ^ (- e - 1)) ltac:(lia)) as Hdm.
  pose proof (Z.mod_pos_bound (Zpos m + 2 ^ (- e - 1)) (2 * 2 ^ (- e - 1)) ltac:(lia)) as Hr.
  assert (0 <= (Zpos m + 2 ^ (- e - 1)) / (2 * 2 ^ (- e - 1)))
    by (apply Z.div_pos; lia).
  repeat split; try assumption; lia.
Qed.

(** [std::round] yields a double without fractional bits, denoting the
    nearest integer (halfway cases away from zero). *)
Lemma round_nearest (x : Double.double) (v : Q) :
  Double.to_Q x = Some v ->
  exists n, integral (Double.round x) n /\ nearest_integer v n.
Proof.
  destruct x as [s| | |s m e]; cbn [Double.to_Q Double.round]; try discriminate.
  - intros [= <-]. exists 0. split; [reflexivity|]. apply (nearest_integer_exact 0).
  - intros [= <-]. destruct (Z.leb_spec 0 e) as [He|He].
    + eexists. split; [split; [assumption|reflexivity]|].
      destruct s; [|apply nearest_integer_exact].
      replace (Zneg m * 2 ^ e) with (- (Zpos m * 2 ^ e)) by lia.
      apply nearest_integer_exact.
    + destruct (round_magnitude_bounds m e He) as (Hq & HD & Hh & Hlo & Hhi).
      set (q := Double.round_magnitude m e) in *.
      set (h := 2 ^ (- e - 1)) in *.
      exists (if s then - q else q). split.
      * destruct q as [|q'|q'] eqn:Eq; cbn [integral]; try lia.
        -- destruct s; reflexivity.
        -- split; [lia|]. change (2 ^ 0) with 1. destruct s; lia.
      * unfold nearest_integer, Qle, Qlt, Qeq, Qabs, Qminus, Qplus, Qopp, inject_Z.
        cbn [Qnum Qden]. rewrite HD.
        rewrite !Pos.mul_1_l, !Z2Pos.id by lia.
        destruct s; split; nia.
Qed.

End Conversion.

Section Lifecycle.

Variable ERR_OFFSET : Z.

(** ** [Initialize] *)

(** C7. Initialize on an object whose [initialized_] flag is set returns
    DEVICE_OK at once: the object is unchanged and no call is made (no
    connect, no request, no polling, no enable). *)
Theorem Initialize_idempotent (w : World) (this : SingleAxisStage) (log : Log) :
  initialized_ this = true ->
  Initialize ERR_OFFSET w this log = Returns DEVICE_OK this log.
Proof.
  intros Hready. unfold_methods. now rewrite Hready.
Qed.


(** C1 (amended). A failing Initialize stores no handle when the drive
    is missing or its connection is invalid (the result is DEVICE_ERR,
    respectively the offset-encoded connection error, and the object is
    untouched).  Once the connection is valid the handle is stored, and
    there is no rollback: when RequestPosition, RequestStatusBits or
    SetChannelEnabled(true) is answered with a nonzero code [err],
    Initialize returns [ERR_OFFSET + err] at once, and when the creation
    of the position property fails it returns that result; in each case
    the handle is still held and [initialized_] is still false.  Only
    when every step succeeds does it set [initialized_] and return
    DEVICE_OK. *)
Theorem Initialize_failure_handle
    (w : World) (this : SingleAxisStage) (log log1 : Log) :
  initialized_ this = false ->
  (Connect w this log = Returns None this log1 ->
     Initialize ERR_OFFSET w this log = Returns DEVICE_ERR this log1)
  /\ (forall md,
        Connect w this log = Returns (Some md) this log1 ->
        IsValid (GetConnection md) = false ->
        Initialize ERR_OFFSET w this log
        = Returns (ERR_OFFSET + ConnectionError (GetConnection md)) this log1)
  /\ (forall md,
        Connect w this log = Returns (Some md) this log1 ->
        IsValid (GetConnection md) = true ->
        let rotational :=
          negb (String.eqb (prop_StageType this) PROPVAL_StageTypeLinear) in
        let factor :=
          if rotational
          then Double.div (prop_DeviceUnitsPerRevolution this) (Double.of_Z 360)
          else Double.div (prop_DeviceUnitsPerMillimeter this) (Double.of_Z 1000) in
        let held :=
          set_deviceUnitsPerUm_ factor
            (set_isRotational_ rotational (set_motorDrive_ (Some md) this)) in
        let errPosition := short_result w log1 CallRequestPosition in
        let log2 := CallRequestPosition :: log1 in
        let errStatus := short_result w log2 CallRequestStatusBits in
        let log3 := CallRequestStatusBits :: log2 in
        let poll := CallStartPolling (pollingIntervalMs_ this) in
        let log4 :=
          CallSleepMs 100
          :: (if bool_result w log3 poll then [] else [CallLogMessage])
          ++ poll :: log3 in
        let enabled := bool_result w log4 CallIsChannelEnabled in
        let log5 := CallIsChannelEnabled :: log4 in
        let errEnable := short_result w log5 (CallSetChannelEnabled true) in
        let log6 := if enabled then log5 else CallSetChannelEnabled true :: log5 in
        let held' := if enabled then held else set_didEnable_ true held in
        let created := CreateFloatProperty_result w log6 in
        let log7 := CallCreateFloatProperty "Position Degrees" :: log6 in
        (motorDrive_ held = Some md /\ initialized_ held = false)
        /\ (motorDrive_ held' = Some md /\ initialized_ held' = false)
        /\ (errPosition <> 0 ->
            Initialize ERR_OFFSET w this log
            = Returns (ERR_OFFSET + errPosition) held log2)
        /\ (errPosition = 0 -> errStatus <> 0 ->
            Initialize ERR_OFFSET w this log
            = Returns (ERR_OFFSET + errStatus) held log3)
        /\ (errPosition = 0 -> errStatus = 0 ->
            enabled = false -> errEnable <> 0 ->
            Initialize ERR_OFFSET w this log
            = Returns (ERR_OFFSET + errEnable) held log6)
        /\ (errPosition = 0 -> errStatus = 0 ->
            enabled = true \/ errEnable = 0 ->
            created <> DEVICE_OK ->
            Initialize ERR_OFFSET w this log = Returns created held' log7)
        /\ (errPosition = 0 -> errStatus = 0 ->
            enabled = true \/ errEnable = 0 ->
            created = DEVICE_OK ->
            Initialize ERR_OFFSET w this log
            = Returns DEVICE_OK (set_initialized_ true held') log7)).
Proof.
  intros Hinit.
  split; [|split].
  - intros E. unfold Initialize. unfold bind at 1. unfold this_ at 1.
    rewrite Hinit. unfold bind at 1. now rewrite E.
  - intros md E Hv. unfold Initialize. unfold bind at 1. unfold this_ at 1.
    rewrite Hinit. unfold bind at 1. rewrite E. now rewrite Hv.
  - intros md E Hv. cbv zeta.
    set (out := Initialize ERR_OFFSET w this log).
    assert (Hout : Initialize ERR_OFFSET w this log = out) by reflexivity.
    clearbody out. revert Hout.
    unfold Initialize. unfold bind at 1. unfold this_ at 1.
    rewrite Hinit. unfold bind at 1. rewrite E. rewrite Hv.
    clear E. unfold_methods. simp_run.
    destruct (negb (prop_StageType this =? PROPVAL_StageTypeLinear)%string);
      simp_run;
      (destruct (Z.eqb_spec (short_result w log1 CallRequestPosition) 0)
        as [E1|E1]; simp_run);
      (destruct (Z.eqb_spec
                   (short_result w (CallRequestPosition :: log1)
                      CallRequestStatusBits) 0) as [E2|E2]; simp_run);
      (destruct (bool_result w
                   (CallRequestStatusBits :: CallRequestPosition :: log1)
                   (CallStartPolling (pollingIntervalMs_ this))) eqn:Epoll;
       simp_run);
      (match goal with
       | |- context [bool_result w ?l CallIsChannelEnabled] =>
           destruct (bool_result w l CallIsChannelEnabled) eqn:Eenabled;
           simp_run;
           destruct (Z.eqb_spec
                       (short_result w (CallIsChannelEnabled :: l)
                          (CallSetChannelEnabled true)) 0) as [E3|E3];
           simp_run
       end);
      (match goal with
       | |- context [CreateFloatProperty_result w ?l] =>
           destruct (Z.eqb_spec (CreateFloatProperty_result w l) DEVICE_OK)
             as [E4|E4]; simp_run
       end);
      intros <-; repeat split; try assumption; intros;
      repeat match goal with
        | H : _ \/ _ |- _ => destruct H
        end;
      try reflexivity; try congruence; try contradiction.
Qed.

(** ** [Shutdown] *)

(** With a handle held, Shutdown completes and drops it. *)
Lemma Shutdown_with_handle
    (w : World) (this : SingleAxisStage) (log : Log) (md : MotorDrive) :
  motorDrive_ this = Some md ->
  exists log',
    Shutdown w this log = Returns DEVICE_OK (set_motorDrive_ None this) log'.
Proof.
  intros Hmd. unfold_methods. simp_run.
  destruct (didEnable_ this); simp_run; repeat (rewrite Hmd; simp_run); eauto.
Qed.

(** Without a handle and with [didEnable_] unset, Shutdown makes no call. *)
Lemma Shutdown_when_idle (w : World) (this : SingleAxisStage) (log : Log) :
  motorDrive_ this = None ->
  didEnable_ this = false ->
  Shutdown w this log = Returns DEVICE_OK (set_motorDrive_ None this) log.
Proof.
  intros Hmd Hen. unfold_methods. simp_run.
  rewrite Hen; simp_run; now repeat (rewrite Hmd; simp_run).
Qed.

(** Whatever Shutdown returns, the flags [initialized_] and
    [didEnable_] are as they were. *)
Lemma Shutdown_keeps_flags
    (w : World) (this this' : SingleAxisStage) (log log' : Log) (r : Z) :
  Shutdown w this log = Returns r this' log' ->
  initialized_ this' = initialized_ this
  /\ didEnable_ this' = didEnable_ this
  /\ motorDrive_ this' = None.
Proof.
  unfold_methods. destruct this as [? ? ? ? [md|] ? ? [|] ? ? ? ? ?]; simp_run;
    intros E; inversion E; subst; simp_run; auto.
Qed.

End Lifecycle.

Section Motion.

Variable ERR_OFFSET : Z.
Variables StatusBitsMovingCW StatusBitsMovingCCW : Z.
Variables StatusBitsJoggingCW StatusBitsJoggingCCW : Z.
Variable StatusBitsHoming : Z.
Variable sizeof_long : Z.

(** ** [Busy] *)

Lemma within_grace_window (us interval : Z) :
  Qle_bool (getMsec us) (inject_Z interval + 10) = true
  <-> us <= 1000 * (interval + 10).
Proof.
  rewrite Qle_bool_iff. unfold getMsec, Qle, Qplus, inject_Z.
  cbn [Qnum Qden]. lia.
Qed.

Lemma land_busy_mask (status : Z) :
  Z.land status (busy_mask StatusBitsMovingCW StatusBitsMovingCCW
                   StatusBitsJoggingCW StatusBitsJoggingCCW StatusBitsHoming)
  <> 0
  <-> (Z.land status StatusBitsMovingCW <> 0
       \/ Z.land status StatusBitsMovingCCW <> 0
       \/ Z.land status StatusBitsJoggingCW <> 0
       \/ Z.land status StatusBitsJoggingCCW <> 0
       \/ Z.land status StatusBitsHoming <> 0).
Proof.
  unfold busy_mask. rewrite !Z.land_lor_distr_r, !Z.lor_eq_0_iff.
  split.
  - intros Hmask.
    destruct (Z.eq_dec (Z.land status StatusBitsMovingCW) 0); [|tauto].
    destruct (Z.eq_dec (Z.land status StatusBitsMovingCCW) 0); [|tauto].
    destruct (Z.eq_dec (Z.land status StatusBitsJoggingCW) 0); [|tauto].
    destruct (Z.eq_dec (Z.land status StatusBitsJoggingCCW) 0); [|tauto].
    destruct (Z.eq_dec (Z.land status StatusBitsHoming) 0); tauto.
  - tauto.
Qed.

(** C5. Busy reads the clock.  While the time since
    [lastMovementStart_] is at most [pollingIntervalMs_ + 10]
    milliseconds it returns true and does not look at the status bits;
    after that it reads the status bits and returns true exactly when
    one of the moving, jogging or homing bits is set. *)
Theorem Busy_two_phase (w : World) (this : SingleAxisStage) (log : Log) :
  let elapsed_us := GetCurrentMMTime_result w log - lastMovementStart_ this in
  let status := GetStatusBits_result w (CallGetCurrentMMTime :: log) in
  let Busy := Busy StatusBitsMovingCW StatusBitsMovingCCW
                StatusBitsJoggingCW StatusBitsJoggingCCW StatusBitsHoming in
  (elapsed_us <= 1000 * (pollingIntervalMs_ this + 10) ->
     Busy w this log = Returns true this (CallGetCurrentMMTime :: log))
  /\ (1000 * (pollingIntervalMs_ this + 10) < elapsed_us ->
      forall md, motorDrive_ this = Some md ->
      exists b,
        Busy w this log
        = Returns b this (CallGetStatusBits :: CallGetCurrentMMTime :: log)
        /\ (b = true <->
            (Z.land status StatusBitsMovingCW <> 0
             \/ Z.land status StatusBitsMovingCCW <> 0
             \/ Z.land status StatusBitsJoggingCW <> 0
             \/ Z.land status StatusBitsJoggingCCW <> 0
             \/ Z.land status StatusBitsHoming <> 0))).
Proof.
  intros elapsed_us status B. subst B elapsed_us status. split.
  - intros Hin. apply within_grace_window in Hin.
    unfold_methods. simp_run. now rewrite Hin.
  - intros Hout md Hmd.
    assert (Hq : Qle_bool
                   (getMsec (GetCurrentMMTime_result w log - lastMovementStart_ this))
                   (inject_Z (pollingIntervalMs_ this) + 10) = false).
    { apply not_true_is_false. rewrite within_grace_window. lia. }
    unfold_methods. simp_run. rewrite Hq, Hmd. simp_run.
    eexists. split; [reflexivity|].
    rewrite <- land_busy_mask, negb_true_iff. apply Z.eqb_neq.
Qed.

(** ** [SetPositionSteps] and [SetPositionUm] *)

(** A target within the range of [int] reaches the drive as it is,
    whichever branch the size of [long] selects. *)
Lemma iSteps_in_range (steps : Z) :
  INT_MIN <= steps <= INT_MAX ->
  (if sizeof_int <? sizeof_long then clamp_int steps else static_cast_int steps)
  = Some steps.
Proof.
  intros Hr. destruct (sizeof_int <? sizeof_long).
  - rewrite clamp_int_long. now rewrite saturate_id.
  - cbn [static_cast_int Numeric_long]. f_equal.
    unfold wrap_int, INT_MIN, INT_MAX in *. change (2 ^ 32) with 4294967296.
    rewrite Z.mod_small; lia.
Qed.

Lemma SetPositionSteps_run
    (w : World) (this : SingleAxisStage) (log : Log) (md : MotorDrive)
    (steps : Z) :
  motorDrive_ this = Some md ->
  INT_MIN <= steps <= INT_MAX ->
  let err := short_result w log (CallMoveToPosition steps) in
  let now := GetCurrentMMTime_result w (CallMoveToPosition steps :: log) in
  SetPositionSteps ERR_OFFSET sizeof_long steps w this log
  = if err =? 0
    then Returns DEVICE_OK (set_lastMovementStart_ now this)
           (CallGetCurrentMMTime :: CallMoveToPosition steps :: log)
    else Returns (ERR_OFFSET + err) this (CallMoveToPosition steps :: log).
Proof.
  intros Hmd Hr err now. subst err now. unfold SetPositionSteps.
  rewrite (iSteps_in_range steps Hr). unfold_methods. simp_run.
  rewrite Hmd. simp_run.
  now destruct (short_result w log (CallMoveToPosition steps) =? 0).
Qed.

(** The conversion never leaves the range of [int], whatever the
    double: [SetPositionUm] always reaches [SetPositionSteps]. *)
Lemma clamp_int_round_total (x : Double.double) :
  exists steps,
    clamp_int (Double.round x) = Some steps /\ INT_MIN <= steps <= INT_MAX.
Proof.
  destruct (Double.to_Q x) as [v|] eqn:Ev.
  - destruct (round_nearest x v Ev) as (n & Hn & _).
    exists (saturate n). split; [now apply clamp_int_double|].
    apply saturate_in_range.
  - destruct x as [s|s| |s m e]; try discriminate.
    + destruct s; [exists INT_MIN | exists INT_MAX];
        (split; [reflexivity|]); unfold INT_MIN, INT_MAX; lia.
    + exists INT_MAX; (split; [reflexivity|]); unfold INT_MIN, INT_MAX; lia.
Qed.

Lemma SetPositionUm_run
    (w : World) (this : SingleAxisStage) (log : Log) (pos : Double.double)
    (steps : Z) :
  clamp_int (Double.round (Double.mul pos (deviceUnitsPerUm_ this))) = Some steps ->
  SetPositionUm ERR_OFFSET sizeof_long pos w this log
  = SetPositionSteps ERR_OFFSET sizeof_long steps w this log.
Proof.
  intros Hc. unfold SetPositionUm. unfold bind at 1. unfold this_ at 1.
  now rewrite Hc.
Qed.

(** C9. With a handle held, SetPositionUm rounds the product
    [pos * deviceUnitsPerUm_] to the nearest integer, saturates it to
    the range of [int] and passes the result to [MoveToPosition]: a
    rounded value above INT_MAX (or an infinite product) gives INT_MAX,
    one below INT_MIN gives INT_MIN, and one in range is passed
    unchanged. *)
Theorem SetPositionUm_rounds_and_saturates
    (w : World) (this : SingleAxisStage) (log : Log) (md : MotorDrive)
    (pos : Double.double) :
  motorDrive_ this = Some md ->
  let product := Double.mul pos (deviceUnitsPerUm_ this) in
  exists steps r this' log',
    SetPositionUm ERR_OFFSET sizeof_long pos w this log = Returns r this' log'
    /\ moves log' = steps :: moves log
    /\ INT_MIN <= steps <= INT_MAX
    /\ (forall v, Double.to_Q product = Some v ->
        exists n, nearest_integer v n
                  /\ (INT_MAX < n -> steps = INT_MAX)
                  /\ (n < INT_MIN -> steps = INT_MIN)
                  /\ (INT_MIN <= n <= INT_MAX -> steps = n))
    /\ (product = S754_infinity false -> steps = INT_MAX)
    /\ (product = S754_infinity true -> steps = INT_MIN).
Proof.
  intros Hmd product.
  destruct (clamp_int_round_total product) as (steps & Hc & Hr).
  exists steps.
  rewrite (SetPositionUm_run w this log pos steps Hc).
  rewrite (SetPositionSteps_run w this log md steps Hmd Hr).
  assert (Hrest :
    (forall v, Double.to_Q product = Some v ->
        exists n, nearest_integer v n
                  /\ (INT_MAX < n -> steps = INT_MAX)
                  /\ (n < INT_MIN -> steps = INT_MIN)
                  /\ (INT_MIN <= n <= INT_MAX -> steps = n))
    /\ (product = S754_infinity false -> steps = INT_MAX)
    /\ (product = S754_infinity true -> steps = INT_MIN)).
  { split; [|split].
    - intros v Ev. destruct (round_nearest product v Ev) as (n & Hn & Hnear).
      rewrite (clamp_int_double _ n Hn) in Hc. injection Hc as <-.
      exists n. split; [assumption|].
      unfold saturate, INT_MIN, INT_MAX. lia.
    - intros E. rewrite E in Hc.
      change (clamp_int (Double.round (S754_infinity false)))
        with (Some INT_MAX) in Hc. congruence.
    - intros E. rewrite E in Hc.
      change (clamp_int (Double.round (S754_infinity true)))
        with (Some INT_MIN) in Hc. congruence. }
  destruct (short_result w log (CallMoveToPosition steps) =? 0);
    do 3 eexists; (split; [reflexivity|]); (split; [reflexivity|]);
    (split; [assumption|]); exact Hrest.
Qed.

(** ** [Home] *)

Lemma Home_run
    (w : World) (this : SingleAxisStage) (log : Log) (md : MotorDrive) :
  motorDrive_ this = Some md ->
  let canHome := bool_result w log CallCanHome in
  let err := short_result w (CallCanHome :: log) CallHome in
  let now := GetCurrentMMTime_result w (CallHome :: CallCanHome :: log) in
  Home ERR_OFFSET w this log
  = if negb canHome
    then Returns DEVICE_UNSUPPORTED_COMMAND this (CallCanHome :: log)
    else if homed_ this
    then Returns DEVICE_OK this (CallCanHome :: log)
    else if err =? 0
    then Returns DEVICE_OK (set_lastMovementStart_ now (set_homed_ true this))
           (CallGetCurrentMMTime :: CallHome :: CallCanHome :: log)
    else Returns (ERR_OFFSET + err) this (CallHome :: CallCanHome :: log).
Proof.
  intros Hmd canHome err now. subst canHome err now.
  unfold_methods. simp_run. rewrite Hmd. simp_run.
  destruct (bool_result w log CallCanHome); simp_run; [|reflexivity].
  destruct (homed_ this); simp_run; [reflexivity|].
  rewrite Hmd. simp_run.
  now destruct (short_result w (CallCanHome :: log) CallHome =? 0).
Qed.

(** C6 (amended). With a handle held, Home first asks [CanHome]: when
    the answer is no it returns DEVICE_UNSUPPORTED_COMMAND, homed or
    not.  When homing is supported and the object is homed already it
    returns DEVICE_OK; on a homed object no [Home] command is issued in
    either case.  Otherwise it issues [Home], and exactly when the
    hardware answers 0 it sets [homed_] and records the time as the
    movement start. *)
Theorem Home_behaviour
    (w : World) (this : SingleAxisStage) (log : Log) (md : MotorDrive) :
  motorDrive_ this = Some md ->
  let canHome := bool_result w log CallCanHome in
  let err := short_result w (CallCanHome :: log) CallHome in
  let now := GetCurrentMMTime_result w (CallHome :: CallCanHome :: log) in
  (canHome = false ->
     Home ERR_OFFSET w this log
     = Returns DEVICE_UNSUPPORTED_COMMAND this (CallCanHome :: log))
  /\ (canHome = true -> homed_ this = true ->
        Home ERR_OFFSET w this log = Returns DEVICE_OK this (CallCanHome :: log))
  /\ (homed_ this = true ->
        exists r, Home ERR_OFFSET w this log = Returns r this (CallCanHome :: log))
  /\ (canHome = true -> homed_ this = false -> err = 0 ->
        Home ERR_OFFSET w this log
        = Returns DEVICE_OK
            (set_lastMovementStart_ now (set_homed_ true this))
            (CallGetCurrentMMTime :: CallHome :: CallCanHome :: log))
  /\ (canHome = true -> homed_ this = false -> err <> 0 ->
        Home ERR_OFFSET w this log
        = Returns (ERR_OFFSET + err) this (CallHome :: CallCanHome :: log)).
Proof.
  intros Hmd canHome err now.
  pose proof (Home_run w this log md Hmd) as Hrun. cbv zeta in Hrun.
  fold canHome err now in Hrun. rewrite Hrun. clear Hrun.
  repeat split.
  - intros ->. reflexivity.
  - intros -> ->. reflexivity.
  - intros ->. destruct canHome; eexists; reflexivity.
  - intros -> -> ->. reflexivity.
  - intros -> -> Herr. apply Z.eqb_neq in Herr. cbn [negb]. now rewrite Herr.
Qed.

(** ** Rejected commands *)

(** C10. When the hardware rejects the command (a nonzero answer to
    [MoveToPosition] for the target that SetPositionUm computes,
    respectively to [Home]), SetPositionUm and Home return the
    offset-encoded code and leave the object exactly as it was;
    [lastMovementStart_] or [homed_] differ after a call only if the
    command was answered with 0. *)
Theorem rejected_command_changes_nothing
    (w : World) (this : SingleAxisStage) (log : Log) (md : MotorDrive) :
  motorDrive_ this = Some md ->
  (forall pos, exists steps,
      clamp_int (Double.round (Double.mul pos (deviceUnitsPerUm_ this)))
      = Some steps
      /\
      let err := short_result w log (CallMoveToPosition steps) in
      (err <> 0 ->
          SetPositionUm ERR_OFFSET sizeof_long pos w this log
          = Returns (ERR_OFFSET + err) this (CallMoveToPosition steps :: log))
      /\ (forall r this' log',
            SetPositionUm ERR_OFFSET sizeof_long pos w this log
            = Returns r this' log' ->
            lastMovementStart_ this' <> lastMovementStart_ this
            \/ homed_ this' <> homed_ this ->
            err = 0 /\ r = DEVICE_OK))
  /\ (let err := short_result w (CallCanHome :: log) CallHome in
      (bool_result w log CallCanHome = true -> homed_ this = false ->
       err <> 0 ->
       Home ERR_OFFSET w this log
       = Returns (ERR_OFFSET + err) this (CallHome :: CallCanHome :: log))
      /\ (forall r this' log',
            Home ERR_OFFSET w this log = Returns r this' log' ->
            lastMovementStart_ this' <> lastMovementStart_ this
            \/ homed_ this' <> homed_ this ->
            err = 0 /\ r = DEVICE_OK
            /\ log' = CallGetCurrentMMTime :: CallHome :: CallCanHome :: log)).
Proof.
  intros Hmd. split.
  - intros pos.
    destruct (clamp_int_round_total (Double.mul pos (deviceUnitsPerUm_ this)))
      as (steps & Hc & Hr).
    exists steps. split; [exact Hc|]. cbv zeta.
    rewrite (SetPositionUm_run w this log pos steps Hc).
    rewrite (SetPositionSteps_run w this log md steps Hmd Hr).
    destruct (Z.eqb_spec (short_result w log (CallMoveToPosition steps)) 0)
      as [E|E].
    + split; [intros; contradiction|].
      intros r this' log' [= <- <- <-] _. now split.
    + split; [reflexivity|].
      intros r this' log' [= <- <- <-] [H|H]; contradiction.
  - pose proof (Home_run w this log md Hmd) as Hrun. cbv zeta in *.
    rewrite Hrun. clear Hrun. split.
    + intros -> -> Herr. apply Z.eqb_neq in Herr. cbn [negb]. now rewrite Herr.
    + intros r this' log'.
      destruct (bool_result w log CallCanHome); cbn [negb];
        [|intros [= <- <- <-] [H|H]; contradiction].
      destruct (homed_ this) eqn:Ehomed;
        [intros [= <- <- <-] [H|H]; congruence|].
      destruct (Z.eqb_spec (short_result w (CallCanHome :: log) CallHome) 0).
      * intros [= <- <- <-] _. auto.
      * intros [= <- <- <-] [H|H]; congruence.
Qed.

End Motion.

Section Scenarios.

Variable ERR_OFFSET : Z.
Variable sizeof_long : Z.

(** An Initialize that runs to completion (it leaves [initialized_]
    set on an object that was not initialized) holds a handle and has
    computed the conversion factor from the properties. *)
Lemma Initialize_completed
    (w : World) (this this1 : SingleAxisStage) (log log1 : Log) (r : Z) :
  initialized_ this = false ->
  Initialize ERR_OFFSET w this log = Returns r this1 log1 ->
  initialized_ this1 = true ->
  r = DEVICE_OK
  /\ (exists md, motorDrive_ this1 = Some md)
  /\ isRotational_ this1
     = negb (String.eqb (prop_StageType this) PROPVAL_StageTypeLinear)
  /\ deviceUnitsPerUm_ this1
     = (if isRotational_ this1
        then Double.div (prop_DeviceUnitsPerRevolution this) (Double.of_Z 360)
        else Double.div (prop_DeviceUnitsPerMillimeter this) (Double.of_Z 1000)).
Proof.
  intros Hinit. unfold_methods. simp_run. rewrite Hinit.
  destruct (MakeConnection_result w log) as [c|]; simp_run;
    [|intros [= <- <- <-]; congruence].
  destruct (MakeKinesisMotorDrive_null w _); simp_run;
    [intros [= <- <- <-]; congruence|].
  destruct (IsValid c); simp_run; [|intros [= <- <- <-]; congruence].
  destruct (negb (prop_StageType this =? PROPVAL_StageTypeLinear)%string);
    simp_run;
    repeat match goal with
      | |- context [if negb ?b then _ else _] => destruct b eqn:?; simp_run
      end;
    intros [= <- <- <-] Hdone; simp_run; try congruence;
    repeat split; eauto.
Qed.

(** C8. Axis kind Rotational with 49152000 device units per
    revolution: after an Initialize that ran to completion,
    SetPositionUm(90.0) issues exactly one [MoveToPosition], with target
    12288000. *)
Theorem SetPositionUm_rotational_90
    (w : World) (this this1 : SingleAxisStage) (log log1 : Log) (r : Z) :
  initialized_ this = false ->
  prop_StageType this = PROPVAL_StageTypeRotational ->
  prop_DeviceUnitsPerRevolution this = Double.of_Z 49152000 ->
  Initialize ERR_OFFSET w this log = Returns r this1 log1 ->
  initialized_ this1 = true ->
  exists r' this2 log2,
    SetPositionUm ERR_OFFSET sizeof_long (Double.of_Z 90) w this1 log1
    = Returns r' this2 log2
    /\ moves log2 = 12288000 :: moves log1.
Proof.
  intros Hinit Htype Hrev Hrun Hdone.
  destruct (Initialize_completed w this this1 log log1 r Hinit Hrun Hdone)
    as (_ & (md & Hmd) & Hrot & Hfactor).
  rewrite Htype in Hrot. cbn in Hrot. rewrite Hrot, Hrev in Hfactor.
  assert (Hc : clamp_int (Double.round (Double.mul (Double.of_Z 90)
                                          (deviceUnitsPerUm_ this1)))
               = Some 12288000)
    by (rewrite Hfactor; vm_compute; reflexivity).
  rewrite (SetPositionUm_run ERR_OFFSET sizeof_long w this1 log1 _ _ Hc).
  rewrite (SetPositionSteps_run ERR_OFFSET sizeof_long w this1 log1 md 12288000 Hmd)
    by (unfold INT_MIN, INT_MAX; lia).
  destruct (short_result w log1 (CallMoveToPosition 12288000) =? 0);
    do 3 eexists; split; reflexivity.
Qed.

(** C4 (amended). Axis kind Linear with 1228800 device units per
    millimetre: the factor is 1228.8 units per micrometre, so after an
    Initialize that ran to completion SetPositionUm(0.5) issues
    [MoveToPosition] with target 614 (614.4 rounded), and it is
    SetPositionUm(500.0) that issues target 614400. *)
Theorem SetPositionUm_linear_half
    (w : World) (this this1 : SingleAxisStage) (log log1 : Log) (r : Z) :
  initialized_ this = false ->
  prop_StageType this = PROPVAL_StageTypeLinear ->
  prop_DeviceUnitsPerMillimeter this = Double.of_Z 1228800 ->
  Initialize ERR_OFFSET w this log = Returns r this1 log1 ->
  initialized_ this1 = true ->
  (exists r' this2 log2,
      SetPositionUm ERR_OFFSET sizeof_long (Double.of_bits 1 (-1)) w this1 log1
      = Returns r' this2 log2
      /\ moves log2 = 614 :: moves log1)
  /\ (exists r' this2 log2,
      SetPositionUm ERR_OFFSET sizeof_long (Double.of_Z 500) w this1 log1
      = Returns r' this2 log2
      /\ moves log2 = 614400 :: moves log1).
Proof.
  intros Hinit Htype Hmm Hrun Hdone.
  destruct (Initialize_completed w this this1 log log1 r Hinit Hrun Hdone)
    as (_ & (md & Hmd) & Hrot & Hfactor).
  rewrite Htype in Hrot. cbn in Hrot. rewrite Hrot, Hmm in Hfactor.
  assert (Hc : clamp_int (Double.round (Double.mul (Double.of_bits 1 (-1))
                                          (deviceUnitsPerUm_ this1)))
               = Some 614)
    by (rewrite Hfactor; vm_compute; reflexivity).
  assert (Hc' : clamp_int (Double.round (Double.mul (Double.of_Z 500)
                                          (deviceUnitsPerUm_ this1)))
               = Some 614400)
    by (rewrite Hfactor; vm_compute; reflexivity).
  split.
  - rewrite (SetPositionUm_run ERR_OFFSET sizeof_long w this1 log1 _ _ Hc).
    rewrite (SetPositionSteps_run ERR_OFFSET sizeof_long w this1 log1 md 614 Hmd)
      by (unfold INT_MIN, INT_MAX; lia).
    destruct (short_result w log1 (CallMoveToPosition 614) =? 0);
      do 3 eexists; split; reflexivity.
  - rewrite (SetPositionUm_run ERR_OFFSET sizeof_long w this1 log1 _ _ Hc').
    rewrite (SetPositionSteps_run ERR_OFFSET sizeof_long w this1 log1 md 614400 Hmd)
      by (unfold INT_MIN, INT_MAX; lia).
    destruct (short_result w log1 (CallMoveToPosition 614400) =? 0);
      do 3 eexists; split; reflexivity.
Qed.

End Scenarios.

(** * The properties at concrete objects and worlds *)

(** An initialized object returns DEVICE_OK from Initialize without a
    call. *)
Lemma Initialize_idempotent_witness :
  initialized_ Example.ready = true
  /\ Example.Initialize Example.cooperative Example.ready []
     = Returns DEVICE_OK Example.ready [].
Proof.
  split; [reflexivity|].
  apply (Initialize_idempotent Example.ERR_OFFSET Example.cooperative Example.ready []).
  reflexivity.
Defined.

(** C1, as stated, fails: [RequestPosition] is rejected with vendor error
    5 after the handle was stored; Initialize returns 10005 and the handle
    is still held. *)
Lemma Initialize_failure_keeps_handle :
  exists this' log',
    Example.Initialize Example.rejecting Example.fresh []
    = Returns 10005 this' log'
    /\ 10005 <> 0
    /\ motorDrive_ this' = Some Example.drive1.
Proof.
  do 2 eexists. split; [vm_compute; reflexivity|]. split; [lia|reflexivity].
Qed.

Lemma Initialize_failure_handle_witness :
  (Example.Initialize Example.no_device Example.fresh []
   = Returns 10005 Example.fresh
       [CallMakeKinesisMotorDrive 1; CallMakeConnection "70000001"])
  /\ (exists this' log',
        Example.Initialize Example.rejecting Example.fresh []
        = Returns 10005 this' log'
        /\ motorDrive_ this' = Some Example.drive1
        /\ initialized_ this' = false)
  /\ (exists this' log',
        Example.Initialize Example3.status_request_fails Example.fresh []
        = Returns 10007 this' log'
        /\ motorDrive_ this' = Some Example.drive1
        /\ initialized_ this' = false)
  /\ (exists this' log',
        Example.Initialize Example3.enable_fails Example.fresh []
        = Returns 10008 this' log'
        /\ motorDrive_ this' = Some Example.drive1
        /\ initialized_ this' = false)
  /\ (exists this' log',
        Example.Initialize Example3.property_fails Example.fresh []
        = Returns 3 this' log'
        /\ motorDrive_ this' = Some Example.drive1
        /\ initialized_ this' = false)
  /\ (exists this' log',
        Example.Initialize Example.cooperative Example.fresh []
        = Returns DEVICE_OK this' log'
        /\ motorDrive_ this' = Some Example.drive1
        /\ initialized_ this' = true).
Proof.
  split; [|split; [|split; [|split; [|split]]]].
  - destruct (Initialize_failure_handle Example.ERR_OFFSET Example.no_device
                Example.fresh []
                [CallMakeKinesisMotorDrive 1; CallMakeConnection "70000001"]
                eq_refl) as (_ & Hinvalid & _).
    exact (Hinvalid {| GetConnection := {| IsValid := false; ConnectionError := 5 |};
                       Channel := 1 |} eq_refl eq_refl).
  - destruct (Initialize_failure_handle Example.ERR_OFFSET Example.rejecting
                Example.fresh []
                [CallMakeKinesisMotorDrive 1; CallMakeConnection "70000001"]
                eq_refl) as (_ & _ & Hvalid).
    pose proof (Hvalid Example.drive1 eq_refl eq_refl) as H. cbv zeta in H.
    destruct H as ((Hmd & Hflag) & _ & Hposition & _).
    do 2 eexists. split; [|split; [exact Hmd|exact Hflag]].
    apply Hposition. cbn. lia.
  - destruct (Initialize_failure_handle Example.ERR_OFFSET
                Example3.status_request_fails Example.fresh []
                [CallMakeKinesisMotorDrive 1; CallMakeConnection "70000001"]
                eq_refl) as (_ & _ & Hvalid).
    pose proof (Hvalid Example.drive1 eq_refl eq_refl) as H. cbv zeta in H.
    destruct H as ((Hmd & Hflag) & _ & _ & Hstatus & _).
    do 2 eexists. split; [|split; [exact Hmd|exact Hflag]].
    apply Hstatus; [reflexivity|]. cbn. lia.
  - destruct (Initialize_failure_handle Example.ERR_OFFSET
                Example3.enable_fails Example.fresh []
                [CallMakeKinesisMotorDrive 1; CallMakeConnection "70000001"]
                eq_refl) as (_ & _ & Hvalid).
    pose proof (Hvalid Example.drive1 eq_refl eq_refl) as H. cbv zeta in H.
    destruct H as ((Hmd & Hflag) & _ & _ & _ & Henable & _).
    do 2 eexists. split; [|split; [exact Hmd|exact Hflag]].
    apply Henable; try reflexivity. cbn. lia.
  - destruct (Initialize_failure_handle Example.ERR_OFFSET
                Example3.property_fails Example.fresh []
                [CallMakeKinesisMotorDrive 1; CallMakeConnection "70000001"]
                eq_refl) as (_ & _ & Hvalid).
    pose proof (Hvalid Example.drive1 eq_refl eq_refl) as H. cbv zeta in H.
    destruct H as (_ & (Hmd & Hflag) & _ & _ & _ & Hcreate & _).
    do 2 eexists. split; [|split; [exact Hmd|exact Hflag]].
    apply Hcreate; try reflexivity.
    + right. reflexivity.
    + cbn. unfold DEVICE_OK. lia.
  - destruct (Initialize_failure_handle Example.ERR_OFFSET
                Example.cooperative Example.fresh []
                [CallMakeKinesisMotorDrive 1; CallMakeConnection "70000001"]
                eq_refl) as (_ & _ & Hvalid).
    pose proof (Hvalid Example.drive1 eq_refl eq_refl) as H. cbv zeta in H.
    destruct H as (_ & _ & _ & _ & _ & _ & Hdone).
    do 2 eexists.
    split; [apply Hdone; try reflexivity; right; reflexivity|].
    split; reflexivity.
Defined.

(** C2: Initialize enables the channel; the first Shutdown drops the
    handle and leaves [didEnable_] set; the second Shutdown calls
    [SetChannelEnabled] through the empty handle. *)
Theorem Shutdown_twice_dereferences_null :
  exists this1 log1,
    then_ Example.Initialize Shutdown Example.cooperative Example.fresh []
    = Returns DEVICE_OK this1 log1
    /\ motorDrive_ this1 = None
    /\ didEnable_ this1 = true
    /\ Shutdown Example.cooperative this1 log1 = Crashes NullDereference log1.
Proof.
  do 2 eexists. split; [vm_compute; reflexivity|].
  repeat split.
Qed.

(** C3: after a successful Initialize and a Shutdown the flag
    [initialized_] is still set and no handle is held; the next Initialize
    returns DEVICE_OK without a call and without a handle. *)
Theorem Shutdown_leaves_initialized_set :
  exists this1 log1,
    then_ Example.Initialize Shutdown Example.cooperative Example.fresh []
    = Returns DEVICE_OK this1 log1
    /\ initialized_ this1 = true
    /\ motorDrive_ this1 = None
    /\ Example.Initialize Example.cooperative this1 log1
       = Returns DEVICE_OK this1 log1.
Proof.
  do 2 eexists. split; [vm_compute; reflexivity|].
  repeat split.
Qed.

(** C4, as stated, fails: the target issued for 0.5 is 614, not 614400. *)
Lemma SetPositionUm_linear_half_is_614 :
  exists r this2 log2,
    then_ Example.Initialize (Example.SetPositionUm (Double.of_bits 1 (-1)))
      Example.cooperative Example.linear_1228800 []
    = Returns r this2 log2
    /\ moves log2 = [614]
    /\ ~ In (CallMoveToPosition 614400) log2.
Proof.
  do 3 eexists. split; [vm_compute; reflexivity|].
  split; [reflexivity|].
  cbn. intros H. repeat (destruct H as [H|H]; [discriminate H|]). exact H.
Qed.

Lemma SetPositionUm_linear_half_witness :
  exists r this2 log2,
    then_ Example.Initialize (Example.SetPositionUm (Double.of_bits 1 (-1)))
      Example.cooperative Example.linear_1228800 []
    = Returns r this2 log2
    /\ moves log2 = [614].
Proof.
  destruct (Example.Initialize Example.cooperative Example.linear_1228800 [])
    as [r this1 log1|u l] eqn:E; [|vm_compute in E; discriminate E].
  pose proof E as Hrun. vm_compute in E. injection E as <- <- <-.
  destruct (SetPositionUm_linear_half Example.ERR_OFFSET Example.sizeof_long
              Example.cooperative Example.linear_1228800 _ [] _ _
              eq_refl eq_refl eq_refl Hrun eq_refl)
    as [(r' & this2 & log2 & Hset & Hmoves) _].
  exists r', this2, log2. split; [|exact Hmoves].
  unfold then_, bind. fold Example.Initialize in Hrun. rewrite Hrun. exact Hset.
Defined.

Lemma SetPositionUm_rotational_90_witness :
  exists r this2 log2,
    then_ Example.Initialize (Example.SetPositionUm (Double.of_Z 90))
      Example.cooperative Example.rotational_49152000 []
    = Returns r this2 log2
    /\ moves log2 = [12288000].
Proof.
  destruct (Example.Initialize Example.cooperative Example.rotational_49152000 [])
    as [r this1 log1|u l] eqn:E; [|vm_compute in E; discriminate E].
  pose proof E as Hrun. vm_compute in E. injection E as <- <- <-.
  destruct (SetPositionUm_rotational_90 Example.ERR_OFFSET Example.sizeof_long
              Example.cooperative Example.rotational_49152000 _ [] _ _
              eq_refl eq_refl eq_refl Hrun eq_refl)
    as (r' & this2 & log2 & Hset & Hmoves).
  exists r', this2, log2. split; [|exact Hmoves].
  unfold then_, bind. fold Example.Initialize in Hrun. rewrite Hrun. exact Hset.
Defined.

(** One second after the movement start, with the clockwise bit set and
    with no bit set; and at the movement start itself. *)
Lemma Busy_two_phase_witness :
  Example.Busy Example.cooperative Example.ready []
  = Returns true Example.ready [CallGetCurrentMMTime]
  /\ Example.Busy Example.moving Example.ready [CallSleepMs 100]
     = Returns true Example.ready
         [CallGetStatusBits; CallGetCurrentMMTime; CallSleepMs 100]
  /\ Example.Busy Example.cooperative Example.ready [CallSleepMs 100]
     = Returns false Example.ready
         [CallGetStatusBits; CallGetCurrentMMTime; CallSleepMs 100].
Proof.
  split; [|split].
  - destruct (Busy_two_phase Example.MovingCW Example.MovingCCW Example.JoggingCW
                Example.JoggingCCW Example.Homing
                Example.cooperative Example.ready []) as [Hin _].
    apply Hin. cbn. lia.
  - destruct (Busy_two_phase Example.MovingCW Example.MovingCCW Example.JoggingCW
                Example.JoggingCCW Example.Homing
                Example.moving Example.ready [CallSleepMs 100]) as [_ Hout].
    destruct (Hout ltac:(cbn; lia) Example.drive1 eq_refl) as (b & Hrun & Hb).
    assert (b = true) as -> by (apply Hb; left; cbn; discriminate).
    exact Hrun.
  - destruct (Busy_two_phase Example.MovingCW Example.MovingCCW Example.JoggingCW
                Example.JoggingCCW Example.Homing
                Example.cooperative Example.ready [CallSleepMs 100]) as [_ Hout].
    destruct (Hout ltac:(cbn; lia) Example.drive1 eq_refl) as (b & Hrun & Hb).
    destruct b; [|exact Hrun].
    destruct Hb as [Hb _].
    destruct (Hb eq_refl) as [H|[H|[H|[H|H]]]]; exfalso; apply H; reflexivity.
Defined.

(** C6, as stated, fails: the object is homed, the device answers that it
    cannot home, and Home returns DEVICE_UNSUPPORTED_COMMAND instead of
    DEVICE_OK. *)
Lemma Home_homed_but_unsupported :
  homed_ (set_homed_ true Example.ready) = true
  /\ Example.Home Example.cannot_home (set_homed_ true Example.ready) []
     = Returns DEVICE_UNSUPPORTED_COMMAND (set_homed_ true Example.ready)
         [CallCanHome]
  /\ DEVICE_UNSUPPORTED_COMMAND <> DEVICE_OK.
Proof.
  split; [reflexivity|]. split; [reflexivity|]. discriminate.
Qed.

Lemma Home_behaviour_witness :
  (Example.Home Example.cannot_home Example.ready []
   = Returns DEVICE_UNSUPPORTED_COMMAND Example.ready [CallCanHome])
  /\ (Example.Home Example.cooperative (set_homed_ true Example.ready) []
      = Returns DEVICE_OK (set_homed_ true Example.ready) [CallCanHome])
  /\ (Example.Home Example.cooperative Example.ready []
      = Returns DEVICE_OK
          (set_lastMovementStart_ 2000000 (set_homed_ true Example.ready))
          [CallGetCurrentMMTime; CallHome; CallCanHome])
  /\ (Example.Home Example.rejecting Example.ready []
      = Returns 10005 Example.ready [CallHome; CallCanHome]).
Proof.
  split; [|split; [|split]].
  - destruct (Home_behaviour Example.ERR_OFFSET Example.cannot_home Example.ready
                [] Example.drive1 eq_refl) as (H & _).
    exact (H eq_refl).
  - destruct (Home_behaviour Example.ERR_OFFSET Example.cooperative
                (set_homed_ true Example.ready) [] Example.drive1 eq_refl)
      as (_ & H & _).
    exact (H eq_refl eq_refl).
  - destruct (Home_behaviour Example.ERR_OFFSET Example.cooperative Example.ready
                [] Example.drive1 eq_refl) as (_ & _ & _ & H & _).
    exact (H eq_refl eq_refl eq_refl).
  - destruct (Home_behaviour Example.ERR_OFFSET Example.rejecting Example.ready
                [] Example.drive1 eq_refl) as (_ & _ & _ & _ & H).
    apply (H eq_refl eq_refl). cbn. lia.
Defined.

(** A target of 10^10 micrometres at one device unit per micrometre
    saturates at INT_MAX. *)
Lemma SetPositionUm_rounds_and_saturates_witness :
  exists r this' log',
    Example.SetPositionUm (Double.of_Z 10000000000) Example.cooperative
      Example.ready []
    = Returns r this' log'
    /\ moves log' = [INT_MAX].
Proof.
  destruct (SetPositionUm_rounds_and_saturates Example.ERR_OFFSET
              Example.sizeof_long Example.cooperative Example.ready []
              Example.drive1 (Double.of_Z 10000000000) eq_refl)
    as (steps & r & this' & log' & Hrun & Hmoves & _ & Hfinite & _).
  exists r, this', log'. split; [exact Hrun|].
  destruct (Hfinite (5242880000000000 # 524288)%Q eq_refl)
    as (n & [Hnear _] & Hmax & _).
  rewrite Hmoves. cbn [moves flat_map]. f_equal. apply Hmax.
  unfold Qle, Qabs, Qminus, Qplus, Qopp, inject_Z in Hnear. cbn [Qnum Qden] in Hnear.
  unfold INT_MAX. lia.
Defined.

(** The drive rejects the target 90, and only that one, with vendor
    error 5; and it rejects [Home]. *)
Lemma rejected_command_changes_nothing_witness :
  Example.SetPositionUm (Double.of_Z 90) Example3.rejects_90 Example.ready []
  = Returns 10005 Example.ready [CallMoveToPosition 90]
  /\ Example.Home Example.rejecting Example.ready []
     = Returns 10005 Example.ready [CallHome; CallCanHome].
Proof.
  split.
  - destruct (rejected_command_changes_nothing Example.ERR_OFFSET
                Example.sizeof_long Example3.rejects_90 Example.ready []
                Example.drive1 eq_refl) as [Hmove _].
    destruct (Hmove (Double.of_Z 90)) as (steps & Hc & Hrej & _).
    vm_compute in Hc. injection Hc as <-.
    apply Hrej. cbn. lia.
  - destruct (rejected_command_changes_nothing Example.ERR_OFFSET
                Example.sizeof_long Example.rejecting Example.ready []
                Example.drive1 eq_refl) as [_ [Hhome _]].
    apply (Hhome eq_refl eq_refl). cbn. lia.
Defined.


(** * Further properties of the lifecycle *)

#[local] Ltac branch :=
  match goal with
  | |- context [if negb ?b then _ else _] => destruct b eqn:?
  | |- context [if ?b then _ else _] => destruct b eqn:?
  | |- context [match ?o with Some _ => _ | None => _ end] => destruct o eqn:?
  end; simp_run.

#[local] Ltac branches := unfold_methods; simp_run; repeat branch.

Section MoreLifecycle.

Variable ERR_OFFSET : Z.

(** X1. Shutdown runs into a null dereference exactly when [didEnable_]
    is set and no handle is held.  Whenever it returns, the result is
    DEVICE_OK whatever the drive answered, only [motorDrive_] has changed
    (it is empty), the channel was disabled exactly if [didEnable_] was
    set, and polling was stopped exactly if a handle was held. *)
Theorem Shutdown_outcome (w : World) (this : SingleAxisStage) (log : Log) :
  (motorDrive_ this = None -> didEnable_ this = true ->
     Shutdown w this log = Crashes NullDereference log)
  /\ (forall u l, Shutdown w this log = Crashes u l ->
        motorDrive_ this = None /\ didEnable_ this = true)
  /\ (forall r this' log',
        Shutdown w this log = Returns r this' log' ->
        r = DEVICE_OK
        /\ this' = set_motorDrive_ None this
        /\ log' = match motorDrive_ this with
                  | Some _ => [CallStopPolling]
                  | None => []
                  end
                  ++ (if didEnable_ this then [CallSetChannelEnabled false] else [])
                  ++ log).
Proof.
  destruct this as [? ? ? ? [md|] ? ? [|] ? ? ? ? ?];
    unfold_methods; simp_run; repeat split;
    try discriminate; try reflexivity;
    intros; try discriminate;
    match goal with
    | H : Returns _ _ _ = Returns _ _ _ |- _ => inversion H; subst; reflexivity
    | H : Crashes _ _ = Crashes _ _ |- _ => idtac
    | _ => idtac
    end; auto.
Qed.

(** X2. On an object that did not enable the channel, Shutdown can be
    repeated: after one Shutdown a second one, on any hardware, returns
    DEVICE_OK and makes no call. *)
Theorem Shutdown_repeatable
    (w w' : World) (this this' : SingleAxisStage) (log log' : Log) (r : Z) :
  didEnable_ this = false ->
  Shutdown w this log = Returns r this' log' ->
  Shutdown w' this' log' = Returns DEVICE_OK this' log'.
Proof.
  destruct this as [? ? ? ? [md|] ? ? [|] ? ? ? ? ?];
    unfold_methods; simp_run; intros Hen Hrun; try discriminate;
    inversion Hrun; subst; reflexivity.
Qed.

(** X3. Initialize never touches [homed_], [lastMovementStart_], the
    polling interval, the identity of the device or the three pre-init
    properties; it never clears [didEnable_]; and it only adds calls to
    the log. *)
Theorem Initialize_frame
    (w : World) (this this' : SingleAxisStage) (log log' : Log) (r : Z) :
  Initialize ERR_OFFSET w this log = Returns r this' log' ->
  homed_ this' = homed_ this
  /\ lastMovementStart_ this' = lastMovementStart_ this
  /\ pollingIntervalMs_ this' = pollingIntervalMs_ this
  /\ serialNo_ this' = serialNo_ this
  /\ channel_ this' = channel_ this
  /\ prop_StageType this' = prop_StageType this
  /\ prop_DeviceUnitsPerMillimeter this' = prop_DeviceUnitsPerMillimeter this
  /\ prop_DeviceUnitsPerRevolution this' = prop_DeviceUnitsPerRevolution this
  /\ (didEnable_ this = true -> didEnable_ this' = true)
  /\ exists l, log' = l ++ log.
Proof.
  branches; intros [= <- <- <-]; simp_run;
    repeat split; try assumption; try congruence;
    match goal with
    | |- exists l, ?x = l ++ ?y =>
        let rec go acc t :=
          lazymatch t with
          | y => exists (rev acc)
          | ?c :: ?t' => go (c :: acc) t'
          end in
        go (@nil Call) x; reflexivity
    end.
Qed.

#[local] Ltac split_log :=
  match goal with
  | |- exists l, ?x = l ++ ?y /\ _ =>
      let rec go acc t :=
        lazymatch t with
        | y => exists (rev acc)
        | ?c :: ?t' => go (c :: acc) t'
        end in
      go (@nil Call) x; split; [reflexivity|]
  end.

(** X4. After an Initialize that ran to completion on an object whose
    [didEnable_] was unset, Shutdown returns DEVICE_OK on any hardware,
    and it disables the channel exactly if that Initialize enabled it. *)
Theorem Shutdown_disables_iff_Initialize_enabled
    (w w' : World) (this this1 : SingleAxisStage) (log log1 : Log) (r : Z) :
  initialized_ this = false ->
  didEnable_ this = false ->
  Initialize ERR_OFFSET w this log = Returns r this1 log1 ->
  initialized_ this1 = true ->
  exists l1, log1 = l1 ++ log
  /\ exists l2, Shutdown w' this1 log1
                = Returns DEVICE_OK (set_motorDrive_ None this1) (l2 ++ log1)
  /\ (In (CallSetChannelEnabled false) l2 <-> In (CallSetChannelEnabled true) l1)
  /\ (In (CallSetChannelEnabled true) l1 <-> didEnable_ this1 = true)
  /\ In CallStopPolling l2.
Proof.
  destruct this as [? ? ? ? ? ? ? ? ? ? ? ? ?]; simp_run.
  intros -> ->. branches; intros [= <- <- <-] Hdone; simp_run;
    try discriminate; split_log;
    unfold_methods; simp_run.
  all: first [ exists [CallStopPolling; CallSetChannelEnabled false];
               split; [reflexivity|]
             | exists [CallStopPolling]; split; [reflexivity|] ];
    cbn [In rev app];
    intuition (try discriminate; try congruence).
Qed.

(** X5. A failure to start polling is logged and is not fatal: in every
    Initialize that runs to completion, [StartPolling] was asked with the
    object's polling interval right after the two requests, a message was
    logged exactly if the answer was false, and the 100 ms sleep
    followed. *)
Theorem Initialize_polling_failure_logged
    (w : World) (this this1 : SingleAxisStage) (log log1 : Log) (r : Z) :
  initialized_ this = false ->
  Initialize ERR_OFFSET w this log = Returns r this1 log1 ->
  initialized_ this1 = true ->
  let asked :=
    CallRequestStatusBits :: CallRequestPosition
    :: CallMakeKinesisMotorDrive (channel_ this)
    :: CallMakeConnection (serialNo_ this) :: log in
  let poll := CallStartPolling (pollingIntervalMs_ this) in
  exists l, log1 = l ++ poll :: asked
  /\ (In CallLogMessage l <-> bool_result w asked poll = false)
  /\ In (CallSleepMs 100) l.
Proof.
  destruct this as [? ? ? ? ? ? ? ? ? ? ? ? ?]; simp_run.
  intros ->. branches; intros [= <- <- <-] Hdone; simp_run;
    try discriminate; split_log; cbn [In rev app];
    repeat match goal with
      | H : bool_result _ _ (CallStartPolling _) = _ |- _ => rewrite H
      end;
    intuition (try discriminate; try congruence).
Qed.

End MoreLifecycle.

(** * Further properties of the motion methods *)

Section MoreMotion.

Variable ERR_OFFSET : Z.
Variables StatusBitsMovingCW StatusBitsMovingCCW : Z.
Variables StatusBitsJoggingCW StatusBitsJoggingCCW : Z.
Variable StatusBitsHoming : Z.
Variable sizeof_long : Z.


(** X6. A target that is not a number is not rejected: when the product
    [pos * deviceUnitsPerUm_] is NaN, SetPositionUm asks the drive to
    move to INT_MAX. *)
Theorem SetPositionUm_nan_moves_to_INT_MAX
    (w : World) (this : SingleAxisStage) (log : Log) (md : MotorDrive)
    (pos : Double.double) :
  motorDrive_ this = Some md ->
  Double.mul pos (deviceUnitsPerUm_ this) = S754_nan ->
  exists r this' log',
    SetPositionUm ERR_OFFSET sizeof_long pos w this log = Returns r this' log'
    /\ moves log' = INT_MAX :: moves log.
Proof.
  intros Hmd Hnan.
  assert (Hc : clamp_int (Double.round (Double.mul pos (deviceUnitsPerUm_ this)))
               = Some INT_MAX) by (rewrite Hnan; reflexivity).
  rewrite (SetPositionUm_run ERR_OFFSET sizeof_long w this log pos INT_MAX Hc).
  rewrite (SetPositionSteps_run ERR_OFFSET sizeof_long w this log md INT_MAX Hmd)
    by (unfold INT_MIN, INT_MAX; lia).
  destruct (short_result w log (CallMoveToPosition INT_MAX) =? 0);
    do 3 eexists; split; reflexivity.
Qed.

(** X7. SetPositionSteps passes the saturated target to the drive where
    [long] is wider than [int], and the target converted to [int] where
    it is not; either way the drive receives a value in the range of
    [int], and a target in that range is passed unchanged. *)
Theorem SetPositionSteps_target
    (w : World) (this : SingleAxisStage) (log : Log) (md : MotorDrive)
    (steps : Z) :
  motorDrive_ this = Some md ->
  exists target r this' log',
    SetPositionSteps ERR_OFFSET sizeof_long steps w this log
    = Returns r this' log'
    /\ moves log' = target :: moves log
    /\ target = (if sizeof_int <? sizeof_long then saturate steps
                 else wrap_int steps)
    /\ INT_MIN <= target <= INT_MAX
    /\ (INT_MIN <= steps <= INT_MAX -> target = steps).
Proof.
  intros Hmd.
  exists (if sizeof_int <? sizeof_long then saturate steps else wrap_int steps).
  assert (Hrange : INT_MIN <= (if sizeof_int <? sizeof_long then saturate steps
                               else wrap_int steps) <= INT_MAX).
  { destruct (sizeof_int <? sizeof_long); [apply saturate_in_range|].
    unfold wrap_int, INT_MIN, INT_MAX. change (2 ^ 32) with 4294967296.
    pose proof (Z.mod_pos_bound (steps - -2147483648) 4294967296 ltac:(lia)).
    lia. }
  assert (Hid : INT_MIN <= steps <= INT_MAX ->
                (if sizeof_int <? sizeof_long then saturate steps
                 else wrap_int steps) = steps).
  { intros Hin. destruct (sizeof_int <? sizeof_long); [now apply saturate_id|].
    unfold wrap_int, INT_MIN, INT_MAX in *. change (2 ^ 32) with 4294967296.
    rewrite Z.mod_small; lia. }
  unfold SetPositionSteps.
  replace (if sizeof_int <? sizeof_long then clamp_int steps
           else static_cast_int steps)
    with (Some (if sizeof_int <? sizeof_long then saturate steps
                else wrap_int steps))
    by (destruct (sizeof_int <? sizeof_long);
        [now rewrite clamp_int_long | reflexivity]).
  unfold_methods. simp_run. rewrite Hmd. simp_run.
  destruct (short_result w log _ =? 0); simp_run;
    do 3 eexists; (split; [reflexivity|]); (split; [reflexivity|]);
    (split; [reflexivity|]); split; assumption.
Qed.

(** X8. A move that the drive accepts arms the grace window: when the
    drive accepts the target that SetPositionUm computes, and Busy is
    asked next with a clock reading at most [pollingIntervalMs_ + 10] ms
    after the reading SetPositionUm recorded, Busy returns true without
    reading the status bits. *)
Theorem SetPositionUm_then_Busy
    (w : World) (this : SingleAxisStage) (log : Log) (md : MotorDrive)
    (pos : Double.double) :
  motorDrive_ this = Some md ->
  exists steps,
    clamp_int (Double.round (Double.mul pos (deviceUnitsPerUm_ this)))
    = Some steps
    /\
    let moved := CallMoveToPosition steps :: log in
    let started := GetCurrentMMTime_result w moved in
    let asked := GetCurrentMMTime_result w (CallGetCurrentMMTime :: moved) in
    short_result w log (CallMoveToPosition steps) = 0 ->
    asked - started <= 1000 * (pollingIntervalMs_ this + 10) ->
    then_ (SetPositionUm ERR_OFFSET sizeof_long pos)
      (Busy StatusBitsMovingCW StatusBitsMovingCCW StatusBitsJoggingCW
       StatusBitsJoggingCCW StatusBitsHoming) w this log
    = Returns true (set_lastMovementStart_ started this)
        (CallGetCurrentMMTime :: CallGetCurrentMMTime :: moved).
Proof.
  intros Hmd.
  destruct (clamp_int_round_total (Double.mul pos (deviceUnitsPerUm_ this)))
    as (steps & Hc & Hr).
  exists steps. split; [exact Hc|]. intros moved started asked Hok Hwin.
  unfold then_, bind.
  rewrite (SetPositionUm_run ERR_OFFSET sizeof_long w this log pos steps Hc).
  rewrite (SetPositionSteps_run ERR_OFFSET sizeof_long w this log md steps Hmd Hr).
  rewrite Hok. cbn [Z.eqb].
  apply within_grace_window in Hwin.
  unfold Busy. unfold_methods. simp_run.
  fold moved. fold started. fold asked. now rewrite Hwin.
Qed.

(** X9. Homing arms the grace window in the same way: after a Home
    command that the drive accepts, a Busy asked within
    [pollingIntervalMs_ + 10] ms of the recorded start returns true
    without reading the status bits, and the object is homed. *)
Theorem Home_then_Busy
    (w : World) (this : SingleAxisStage) (log : Log) (md : MotorDrive) :
  motorDrive_ this = Some md ->
  homed_ this = false ->
  bool_result w log CallCanHome = true ->
  short_result w (CallCanHome :: log) CallHome = 0 ->
  let homing := CallHome :: CallCanHome :: log in
  let started := GetCurrentMMTime_result w homing in
  let asked := GetCurrentMMTime_result w (CallGetCurrentMMTime :: homing) in
  asked - started <= 1000 * (pollingIntervalMs_ this + 10) ->
  then_ (Home ERR_OFFSET)
    (Busy StatusBitsMovingCW StatusBitsMovingCCW StatusBitsJoggingCW
       StatusBitsJoggingCCW StatusBitsHoming) w this log
  = Returns true (set_lastMovementStart_ started (set_homed_ true this))
      (CallGetCurrentMMTime :: CallGetCurrentMMTime :: homing).
Proof.
  intros Hmd Hhomed Hcan Hok homing started asked Hwin.
  unfold then_, bind.
  pose proof (Home_run ERR_OFFSET w this log md Hmd) as Hrun. cbv zeta in Hrun.
  rewrite Hrun, Hcan, Hhomed, Hok. cbn [negb Z.eqb].
  apply within_grace_window in Hwin.
  unfold Busy. unfold_methods. simp_run.
  fold homing. fold started. fold asked. now rewrite Hwin.
Qed.

(** X10. Busy is a query: whenever it returns, the object is unchanged
    and no command was sent (the log gains the clock reading and at most
    one status read).  Past the grace window on an object without a
    handle it dereferences the empty handle. *)
Theorem Busy_is_a_query (w : World) (this : SingleAxisStage) (log : Log) :
  (forall b this' log',
      Busy StatusBitsMovingCW StatusBitsMovingCCW StatusBitsJoggingCW
        StatusBitsJoggingCCW StatusBitsHoming w this log
      = Returns b this' log' ->
      this' = this
      /\ (log' = CallGetCurrentMMTime :: log
          \/ log' = CallGetStatusBits :: CallGetCurrentMMTime :: log))
  /\ (motorDrive_ this = None ->
      1000 * (pollingIntervalMs_ this + 10)
      < GetCurrentMMTime_result w log - lastMovementStart_ this ->
      Busy StatusBitsMovingCW StatusBitsMovingCCW StatusBitsJoggingCW
        StatusBitsJoggingCCW StatusBitsHoming w this log
      = Crashes NullDereference (CallGetCurrentMMTime :: log)).
Proof.
  split.
  - intros b this' log'. unfold Busy. unfold_methods. simp_run.
    destruct (Qle_bool _ _); simp_run;
      [intros [= <- <- <-]; auto|].
    destruct (motorDrive_ this); simp_run; [|discriminate].
    intros [= <- <- <-]; auto.
  - intros Hmd Hout.
    assert (Hq : Qle_bool
                   (getMsec (GetCurrentMMTime_result w log - lastMovementStart_ this))
                   (inject_Z (pollingIntervalMs_ this) + 10) = false).
    { apply not_true_is_false. rewrite within_grace_window. lia. }
    unfold Busy. unfold_methods. simp_run. now rewrite Hq, Hmd.
Qed.

(** X11. Initialize does not validate the scale factor: with a linear
    stage and zero device units per millimetre it runs to completion
    with a zero conversion factor, and then every finite target is sent
    to the drive as step 0. *)
Theorem zero_scale_factor_accepted
    (w : World) (this this1 : SingleAxisStage) (log log1 : Log) (r : Z)
    (sz : bool) :
  initialized_ this = false ->
  prop_StageType this = PROPVAL_StageTypeLinear ->
  prop_DeviceUnitsPerMillimeter this = S754_zero sz ->
  Initialize ERR_OFFSET w this log = Returns r this1 log1 ->
  initialized_ this1 = true ->
  r = DEVICE_OK
  /\ deviceUnitsPerUm_ this1 = S754_zero sz
  /\ forall w' pos v,
       Double.to_Q pos = Some v ->
       exists r' this2 log2,
         SetPositionUm ERR_OFFSET sizeof_long pos w' this1 log1
         = Returns r' this2 log2
         /\ moves log2 = 0 :: moves log1.
Proof.
  intros Hinit Htype Hzero Hrun Hdone.
  destruct (Initialize_completed ERR_OFFSET w this this1 log log1 r Hinit Hrun Hdone)
    as (Hr & (md & Hmd) & Hrot & Hfactor).
  rewrite Htype in Hrot. cbn in Hrot. rewrite Hrot, Hzero in Hfactor.
  assert (Hf : deviceUnitsPerUm_ this1 = S754_zero sz)
    by (rewrite Hfactor; destruct sz; reflexivity).
  split; [exact Hr|]. split; [exact Hf|].
  intros w' pos v Hv.
  assert (Hc : clamp_int (Double.round (Double.mul pos (deviceUnitsPerUm_ this1)))
               = Some 0).
  { rewrite Hf. destruct pos as [s| | |s m e]; try discriminate;
      destruct s, sz; reflexivity. }
  rewrite (SetPositionUm_run ERR_OFFSET sizeof_long w' this1 log1 pos 0 Hc).
  rewrite (SetPositionSteps_run ERR_OFFSET sizeof_long w' this1 log1 md 0 Hmd)
    by (unfold INT_MIN, INT_MAX; lia).
  destruct (short_result w' log1 (CallMoveToPosition 0) =? 0);
    do 3 eexists; split; reflexivity.
Qed.

End MoreMotion.

(** * Further properties of the conversion templates *)

Section MoreConversion.

(** X12. [clamp] on [long]: with ordered bounds the result lies between
    them, a value between them is returned as it is and one outside is
    replaced by the nearer bound; with the bounds in the wrong order the
    result is the lower one, whatever the value. *)
Theorem clamp_long_bounds (value lower upper : Z) :
  (lower <= upper ->
     lower <= clamp value lower upper <= upper
     /\ (lower <= value <= upper -> clamp value lower upper = value)
     /\ (value < lower -> clamp value lower upper = lower)
     /\ (upper < value -> clamp value lower upper = upper))
  /\ (upper < lower -> clamp value lower upper = lower).
Proof.
  unfold clamp, std_max, std_min. cbn [less Numeric_long].
  destruct (Z.ltb_spec value upper);
    repeat match goal with
      | |- context [?a <? ?b] => destruct (Z.ltb_spec a b)
      end; repeat split; intros; lia.
Qed.

Lemma magnitude_compare_scaled (m1 : positive) (e1 : Z) (m2 : positive) (e2 k : Z) :
  k <= e1 -> k <= e2 ->
  Double.magnitude_compare m1 e1 m2 e2
  = (Zpos m1 * 2 ^ (e1 - k) ?= Zpos m2 * 2 ^ (e2 - k)).
Proof.
  intros H1 H2. unfold Double.magnitude_compare.
  set (mn := Z.min e1 e2).
  assert (Hmn : k <= mn) by (unfold mn; lia).
  replace (e1 - k) with ((e1 - mn) + (mn - k)) by lia.
  replace (e2 - k) with ((e2 - mn) + (mn - k)) by lia.
  rewrite !Z.pow_add_r by (unfold mn; lia).
  rewrite !Z.mul_assoc.
  apply Zmult_compare_compat_r.
  apply Z.lt_gt. apply Z.pow_pos_nonneg; lia.
Qed.

Lemma ltb_upper_fraction (m : positive) (e : Z) :
  e < 0 ->
  Double.ltb (S754_finite false m e) (S754_finite false 9007199250546688 (-22))
  = (Zpos m <? INT_MAX * 2 ^ (- e)).
Proof.
  intros He. unfold Double.ltb. cbn [Double.compare].
  rewrite (magnitude_compare_scaled m e 9007199250546688 (-22) (e - 22)) by lia.
  replace (e - (e - 22)) with 22 by lia.
  replace (-22 - (e - 22)) with (- e) by lia.
  change (2 ^ 22) with 4194304.
  assert (Hp : 0 < 2 ^ (- e)) by (apply Z.pow_pos_nonneg; lia).
  unfold INT_MAX.
  destruct (Z.compare_spec (Zpos m * 4194304) (9007199250546688 * 2 ^ (- e)));
    destruct (Z.ltb_spec (Zpos m) (2147483647 * 2 ^ (- e)));
    try reflexivity; lia.
Qed.

Lemma ltb_lower_fraction (m : positive) (e : Z) :
  e < 0 ->
  Double.ltb (S754_finite true 4503599627370496 (-21)) (S754_finite true m e)
  = (Zpos m <? 2147483648 * 2 ^ (- e)).
Proof.
  intros He. unfold Double.ltb. cbn [Double.compare].
  rewrite (magnitude_compare_scaled 4503599627370496 (-21) m e (e - 21)) by lia.
  replace (e - (e - 21)) with 21 by lia.
  replace (-21 - (e - 21)) with (- e) by lia.
  change (2 ^ 21) with 2097152.
  assert (Hp : 0 < 2 ^ (- e)) by (apply Z.pow_pos_nonneg; lia).
  destruct (Z.compare_spec (4503599627370496 * 2 ^ (- e)) (Zpos m * 2097152));
    destruct (Z.ltb_spec (Zpos m) (2147483648 * 2 ^ (- e)));
    try reflexivity; lia.
Qed.

Lemma cast_fraction (s : bool) (m : positive) (e : Z) :
  e < 0 ->
  let n := if s then - (Zpos m / 2 ^ (- e)) else Zpos m / 2 ^ (- e) in
  INT_MIN <= n <= INT_MAX ->
  static_cast_int (T := Double.double) (S754_finite s m e) = Some n.
Proof.
  intros He n Hn. cbn [static_cast_int Numeric_double Double.trunc].
  apply Z.leb_gt in He. rewrite He. fold n.
  unfold in_int_range.
  destruct Hn as [H1 H2]. apply Z.leb_le in H1, H2. now rewrite H1, H2.
Qed.

(** X13. [clamp_int] on [double] never reaches an undefined conversion:
    for every double, NaN and the infinities included, it yields an
    [int].  A finite double gives its integral part saturated to the
    range of [int], NaN and plus infinity give INT_MAX, minus infinity
    gives INT_MIN. *)
Theorem clamp_int_double_total (d : Double.double) :
  exists n,
    clamp_int d = Some n
    /\ INT_MIN <= n <= INT_MAX
    /\ (forall t, Double.trunc d = Some t -> n = saturate t)
    /\ (d = S754_nan -> n = INT_MAX)
    /\ (d = S754_infinity false -> n = INT_MAX)
    /\ (d = S754_infinity true -> n = INT_MIN).
Proof.
  destruct d as [s|s| |s m e].
  - exists 0. split; [destruct s; reflexivity|].
    split; [unfold INT_MIN, INT_MAX; lia|].
    split; [intros t [= <-]; reflexivity|].
    repeat split; discriminate.
  - exists (if s then INT_MIN else INT_MAX).
    split; [destruct s; reflexivity|].
    split; [destruct s; unfold INT_MIN, INT_MAX; lia|].
    split; [discriminate|].
    repeat split; try discriminate; now intros [= ->].
  - exists INT_MAX. split; [reflexivity|].
    split; [unfold INT_MIN, INT_MAX; lia|].
    split; [discriminate|].
    repeat split; try discriminate; reflexivity.
  - destruct (Z.leb_spec 0 e) as [He|He].
    + set (t := if s then - (Zpos m * 2 ^ e) else Zpos m * 2 ^ e).
      exists (saturate t).
      split; [apply clamp_int_double; split; [assumption|reflexivity]|].
      split; [apply saturate_in_range|].
      repeat split; try discriminate.
      cbn [Double.trunc]. apply Z.leb_le in He. rewrite He. now intros t' [= <-].
    + assert (Hp : 0 < 2 ^ (- e)) by (apply Z.pow_pos_nonneg; lia).
      set (t := if s then - (Zpos m / 2 ^ (- e)) else Zpos m / 2 ^ (- e)).
      exists (saturate t).
      assert (Ht : Double.trunc (S754_finite s m e) = Some t).
      { cbn [Double.trunc]. pose proof He as He'. apply Z.leb_gt in He'.
        now rewrite He'. }
      assert (Hq : 0 <= Zpos m / 2 ^ (- e)) by (apply Z.div_pos; lia).
      split.
      * unfold clamp_int, clamp, std_max, std_min.
        cbn [less from_int Numeric_double].
        rewrite upper_bits, lower_bits. subst t. destruct s.
        -- change (Double.ltb (S754_finite true m e)
                     (S754_finite false 9007199250546688 (-22))) with true.
           cbv iota. rewrite ltb_lower_fraction by assumption.
           destruct (Z.ltb_spec (Zpos m) (2147483648 * 2 ^ (- e))) as [Hlt|Hge].
           ++ assert (Zpos m / 2 ^ (- e) < 2147483648)
                by (apply Z.div_lt_upper_bound; lia).
              rewrite (cast_fraction true m e He)
                by (unfold INT_MIN, INT_MAX; lia).
              f_equal. unfold saturate, INT_MIN, INT_MAX. lia.
           ++ assert (2147483648 <= Zpos m / 2 ^ (- e))
                by (apply Z.div_le_lower_bound; lia).
              rewrite cast_lower. f_equal. unfold saturate, INT_MIN, INT_MAX. lia.
        -- rewrite ltb_upper_fraction by assumption.
           destruct (Z.ltb_spec (Zpos m) (INT_MAX * 2 ^ (- e))) as [Hlt|Hge].
           ++ change (Double.ltb (S754_finite true 4503599627370496 (-21))
                        (S754_finite false m e)) with true.
              cbv iota.
              assert (Zpos m / 2 ^ (- e) < INT_MAX)
                by (apply Z.div_lt_upper_bound; unfold INT_MAX in *; lia).
              rewrite (cast_fraction false m e He)
                by (unfold INT_MIN, INT_MAX in *; lia).
              f_equal. unfold saturate, INT_MIN, INT_MAX in *. lia.
           ++ change (Double.ltb (S754_finite true 4503599627370496 (-21))
                        (S754_finite false 9007199250546688 (-22))) with true.
              cbv iota.
              assert (INT_MAX <= Zpos m / 2 ^ (- e))
                by (apply Z.div_le_lower_bound; unfold INT_MAX in *; lia).
              rewrite cast_upper. f_equal.
              unfold saturate, INT_MIN, INT_MAX in *. lia.
      * split; [apply saturate_in_range|].
        repeat split; try discriminate.
        rewrite Ht. now intros t' [= <-].
Qed.

End MoreConversion.

(** * Properties of the position read-back *)

Section MoreReadback.

Variable ERR_OFFSET : Z.
Variable sizeof_long : Z.
Variable counter : Log -> Z.

Lemma GetPositionUm_run
    (w : World) (this : SingleAxisStage) (log : Log) (pos : Double.double)
    (md : MotorDrive) :
  motorDrive_ this = Some md ->
  GetPositionUm counter pos w this log
  = Returns (DEVICE_OK,
             Double.div (Double.of_Z (counter log)) (deviceUnitsPerUm_ this))
      this log.
Proof.
  intros Hmd. unfold GetPositionUm, GetPositionSteps, GetPositionCounter.
  unfold_methods. simp_run. now rewrite Hmd.
Qed.

(** X14. With a handle held GetPositionUm returns DEVICE_OK with the
    position counter divided by the conversion factor, changing neither
    the object nor the log; without a handle it dereferences the empty
    handle.  A zero factor is not an error: the result is still
    DEVICE_OK, with an infinite position for a nonzero counter and NaN
    for a zero one. *)
Theorem GetPositionUm_reads
    (w : World) (this : SingleAxisStage) (log : Log) (pos : Double.double) :
  (forall md, motorDrive_ this = Some md ->
     GetPositionUm counter pos w this log
     = Returns (DEVICE_OK,
                Double.div (Double.of_Z (counter log)) (deviceUnitsPerUm_ this))
         this log)
  /\ (motorDrive_ this = None ->
      GetPositionUm counter pos w this log = Crashes NullDereference log)
  /\ (forall md sz s m e,
        motorDrive_ this = Some md ->
        deviceUnitsPerUm_ this = S754_zero sz ->
        Double.of_Z (counter log) = S754_finite s m e ->
        GetPositionUm counter pos w this log
        = Returns (DEVICE_OK, S754_infinity (xorb s sz)) this log)
  /\ (forall md sz,
        motorDrive_ this = Some md ->
        deviceUnitsPerUm_ this = S754_zero sz ->
        counter log = 0 ->
        GetPositionUm counter pos w this log
        = Returns (DEVICE_OK, S754_nan) this log).
Proof.
  pose proof (fun md => GetPositionUm_run w this log pos md) as Hrun.
  split; [exact Hrun|]. split; [|split].
  - intros Hmd. unfold GetPositionUm, GetPositionSteps, GetPositionCounter.
    unfold_methods. simp_run. now rewrite Hmd.
  - intros md sz s m e Hmd Hz Hc. rewrite (Hrun md Hmd), Hz, Hc. reflexivity.
  - intros md sz Hmd Hz Hc. rewrite (Hrun md Hmd), Hz, Hc. reflexivity.
Qed.

(** X15. OnPositionChange reports DEVICE_OK whenever it returns.  On
    AfterSet it forwards the requested value to SetPositionUm and drops
    the result, so a move that the drive rejects still yields DEVICE_OK;
    on BeforeGet it hands the position read back to the property; on
    every other action it does nothing. *)
Theorem OnPositionChange_reports_OK
    (w : World) (this : SingleAxisStage) (log : Log)
    (requested indeterminate : Double.double) :
  (forall eAct r v this' log',
      OnPositionChange ERR_OFFSET sizeof_long counter requested indeterminate
        eAct w this log
      = Returns (r, v) this' log' ->
      r = DEVICE_OK)
  /\ (forall md, motorDrive_ this = Some md ->
      exists steps,
        clamp_int (Double.round (Double.mul requested (deviceUnitsPerUm_ this)))
        = Some steps
        /\ (short_result w log (CallMoveToPosition steps) <> 0 ->
            OnPositionChange ERR_OFFSET sizeof_long counter requested
              indeterminate AfterSet w this log
            = Returns (DEVICE_OK, None) this (CallMoveToPosition steps :: log)))
  /\ (forall md, motorDrive_ this = Some md ->
      OnPositionChange ERR_OFFSET sizeof_long counter requested indeterminate
        BeforeGet w this log
      = Returns (DEVICE_OK,
                 Some (Double.div (Double.of_Z (counter log))
                         (deviceUnitsPerUm_ this)))
          this log)
  /\ (forall eAct, eAct <> BeforeGet -> eAct <> AfterSet ->
      OnPositionChange ERR_OFFSET sizeof_long counter requested indeterminate
        eAct w this log
      = Returns (DEVICE_OK, None) this log).
Proof.
  split; [|split; [|split]].
  - intros eAct r v this' log'. unfold OnPositionChange, bind, ret.
    destruct eAct;
      try (intros [= <- <- <- <-]; reflexivity).
    + destruct (GetPositionUm _ _ _ _ _); [|discriminate].
      intros [= <- <- <- <-]; reflexivity.
    + destruct (SetPositionUm _ _ _ _ _ _); [|discriminate].
      intros [= <- <- <- <-]; reflexivity.
  - intros md Hmd.
    destruct (clamp_int_round_total (Double.mul requested (deviceUnitsPerUm_ this)))
      as (steps & Hc & Hr).
    exists steps. split; [exact Hc|]. intros Herr.
    unfold OnPositionChange. unfold bind at 1.
    rewrite (SetPositionUm_run ERR_OFFSET sizeof_long w this log requested steps Hc).
    rewrite (SetPositionSteps_run ERR_OFFSET sizeof_long w this log md steps Hmd Hr).
    apply Z.eqb_neq in Herr. now rewrite Herr.
  - intros md Hmd. unfold OnPositionChange. unfold bind at 1.
    now rewrite (GetPositionUm_run w this log indeterminate md Hmd).
  - intros eAct H1 H2. destruct eAct; try reflexivity; contradiction.
Qed.

End MoreReadback.

(** * The further properties at concrete objects and worlds *)

Lemma Shutdown_outcome_witness :
  Shutdown Example.cooperative Example2.after_cycle []
  = Crashes NullDereference []
  /\ (forall r this' log',
        Shutdown Example.rejecting Example.ready [] = Returns r this' log' ->
        r = DEVICE_OK
        /\ this' = Example2.after_cycle
        /\ log' = [CallStopPolling; CallSetChannelEnabled false]).
Proof.
  split.
  - destruct (Shutdown_outcome Example.cooperative Example2.after_cycle [])
      as (Hcrash & _).
    exact (Hcrash eq_refl eq_refl).
  - intros r this' log' Hrun.
    destruct (Shutdown_outcome Example.rejecting Example.ready [])
      as (_ & _ & Hret).
    exact (Hret r this' log' Hrun).
Defined.

Lemma Shutdown_repeatable_witness :
  Shutdown Example.rejecting (set_motorDrive_ None Example.fresh) [CallStopPolling]
  = Returns DEVICE_OK (set_motorDrive_ None Example.fresh) [CallStopPolling].
Proof.
  apply (Shutdown_repeatable Example.cooperative Example.rejecting
           (set_motorDrive_ (Some Example.drive1) Example.fresh)
           (set_motorDrive_ None Example.fresh) [] [CallStopPolling] DEVICE_OK);
    reflexivity.
Defined.

Lemma Initialize_frame_witness :
  exists r this' log',
    Example.Initialize Example.cooperative Example.fresh [] = Returns r this' log'
    /\ homed_ this' = false
    /\ lastMovementStart_ this' = 0
    /\ prop_StageType this' = PROPVAL_StageTypeLinear.
Proof.
  destruct (Example.Initialize Example.cooperative Example.fresh [])
    as [r this' log'|u l] eqn:E; [|vm_compute in E; discriminate E].
  destruct (Initialize_frame Example.ERR_OFFSET Example.cooperative Example.fresh
              this' [] log' r E) as (H1 & H2 & _ & _ & _ & H3 & _).
  exists r, this', log'. repeat split; assumption.
Defined.

Lemma Shutdown_disables_iff_Initialize_enabled_witness :
  exists r this1 log1 l2,
    Example.Initialize Example.cooperative Example.fresh [] = Returns r this1 log1
    /\ Shutdown Example.rejecting this1 log1
       = Returns DEVICE_OK (set_motorDrive_ None this1) (l2 ++ log1)
    /\ In (CallSetChannelEnabled false) l2.
Proof.
  destruct (Example.Initialize Example.cooperative Example.fresh [])
    as [r this1 log1|u l] eqn:E; [|vm_compute in E; discriminate E].
  pose proof E as Hrun. vm_compute in E. injection E as <- <- <-.
  destruct (Shutdown_disables_iff_Initialize_enabled Example.ERR_OFFSET
              Example.cooperative Example.rejecting Example.fresh _ [] _ _
              eq_refl eq_refl Hrun eq_refl)
    as (l1 & Hl1 & l2 & Hshut & Hiff & Hen & _).
  do 3 eexists. exists l2. split; [reflexivity|]. split; [exact Hshut|].
  apply Hiff. apply Hen. reflexivity.
Defined.

Lemma Initialize_polling_failure_logged_witness :
  exists this1 log1,
    Example.Initialize Example2.no_polling Example.fresh []
    = Returns DEVICE_OK this1 log1
    /\ initialized_ this1 = true
    /\ In CallLogMessage log1.
Proof.
  destruct (Example.Initialize Example2.no_polling Example.fresh [])
    as [r this1 log1|u l] eqn:E; [|vm_compute in E; discriminate E].
  pose proof E as Hrun. vm_compute in E. injection E as <- <- <-.
  destruct (Initialize_polling_failure_logged Example.ERR_OFFSET
              Example2.no_polling Example.fresh _ [] _ _ eq_refl Hrun eq_refl)
    as (l & Hl & Hlog & _).
  do 2 eexists. split; [reflexivity|]. split; [reflexivity|].
  rewrite Hl. apply in_or_app. left. apply Hlog. reflexivity.
Defined.

Lemma SetPositionUm_nan_moves_to_INT_MAX_witness :
  exists r this' log',
    Example.SetPositionUm S754_nan Example.cooperative Example.ready []
    = Returns r this' log'
    /\ moves log' = [INT_MAX].
Proof.
  exact (SetPositionUm_nan_moves_to_INT_MAX Example.ERR_OFFSET Example.sizeof_long
           Example.cooperative Example.ready [] Example.drive1 S754_nan
           eq_refl eq_refl).
Defined.

(** With an 8-byte [long], 2^40 saturates; with a 4-byte one a target in
    range is passed as it is. *)
Lemma SetPositionSteps_target_witness :
  (exists r this' log',
      SetPositionSteps Example.ERR_OFFSET 8 1099511627776 Example.cooperative
        Example.ready []
      = Returns r this' log'
      /\ moves log' = [INT_MAX])
  /\ (exists r this' log',
        Example.SetPositionSteps (-5) Example.cooperative Example.ready []
        = Returns r this' log'
        /\ moves log' = [-5]).
Proof.
  split.
  - destruct (SetPositionSteps_target Example.ERR_OFFSET 8 Example.cooperative
                Example.ready [] Example.drive1 1099511627776 eq_refl)
      as (target & r & this' & log' & Hrun & Hmoves & Htarget & _).
    exists r, this', log'. split; [exact Hrun|].
    rewrite Hmoves, Htarget. reflexivity.
  - destruct (SetPositionSteps_target Example.ERR_OFFSET Example.sizeof_long
                Example.cooperative Example.ready [] Example.drive1 (-5) eq_refl)
      as (target & r & this' & log' & Hrun & Hmoves & _ & _ & Hid).
    exists r, this', log'. split; [exact Hrun|].
    rewrite Hmoves, Hid by (unfold INT_MIN, INT_MAX; lia). reflexivity.
Defined.

Lemma SetPositionUm_then_Busy_witness :
  then_ (Example.SetPositionUm (Double.of_Z 90)) Example.Busy
    Example2.quick Example.ready []
  = Returns true (set_lastMovementStart_ 100000 Example.ready)
      [CallGetCurrentMMTime; CallGetCurrentMMTime; CallMoveToPosition 90].
Proof.
  destruct (SetPositionUm_then_Busy Example.ERR_OFFSET Example.MovingCW
              Example.MovingCCW Example.JoggingCW Example.JoggingCCW
              Example.Homing Example.sizeof_long Example2.quick Example.ready []
              Example.drive1 (Double.of_Z 90) eq_refl) as (steps & Hc & Hrun).
  vm_compute in Hc. injection Hc as <-.
  apply Hrun; [reflexivity|]. cbn. lia.
Defined.

Lemma Home_then_Busy_witness :
  then_ Example.Home Example.Busy Example2.quick Example.ready []
  = Returns true
      (set_lastMovementStart_ 200000 (set_homed_ true Example.ready))
      [CallGetCurrentMMTime; CallGetCurrentMMTime; CallHome; CallCanHome].
Proof.
  apply (Home_then_Busy Example.ERR_OFFSET Example.MovingCW
           Example.MovingCCW Example.JoggingCW Example.JoggingCCW
           Example.Homing Example2.quick Example.ready [] Example.drive1);
    try reflexivity.
  cbn. lia.
Defined.

Lemma Busy_is_a_query_witness :
  Example.Busy Example.cooperative Example2.after_cycle [CallSleepMs 100]
  = Crashes NullDereference [CallGetCurrentMMTime; CallSleepMs 100].
Proof.
  destruct (Busy_is_a_query Example.MovingCW Example.MovingCCW Example.JoggingCW
              Example.JoggingCCW Example.Homing Example.cooperative
              Example2.after_cycle [CallSleepMs 100]) as (_ & Hcrash).
  apply Hcrash; [reflexivity|]. cbn. lia.
Defined.

Lemma zero_scale_factor_accepted_witness :
  exists this1 log1 r' this2 log2,
    Example.Initialize Example.cooperative Example2.zero_scale []
    = Returns DEVICE_OK this1 log1
    /\ deviceUnitsPerUm_ this1 = S754_zero false
    /\ Example.SetPositionUm (Double.of_Z 500) Example.cooperative this1 log1
       = Returns r' this2 log2
    /\ moves log2 = [0].
Proof.
  destruct (Example.Initialize Example.cooperative Example2.zero_scale [])
    as [r this1 log1|u l] eqn:E; [|vm_compute in E; discriminate E].
  pose proof E as Hrun. vm_compute in E. injection E as <- <- <-.
  destruct (zero_scale_factor_accepted Example.ERR_OFFSET Example.sizeof_long
              Example.cooperative Example2.zero_scale _ [] _ _ false
              eq_refl eq_refl eq_refl Hrun eq_refl)
    as (_ & Hf & Hmove).
  destruct (Hmove Example.cooperative (Double.of_Z 500) _ eq_refl)
    as (r' & this2 & log2 & Hset & Hmoves).
  do 2 eexists. exists r', this2, log2.
  split; [reflexivity|]. split; [exact Hf|]. split; [exact Hset|exact Hmoves].
Defined.

Lemma clamp_long_bounds_witness :
  clamp 5 0 10 = 5 /\ clamp 12 0 10 = 10 /\ clamp (-3) 0 10 = 0
  /\ clamp 5 10 0 = 10.
Proof.
  destruct (clamp_long_bounds 5 0 10) as [Ha _].
  destruct (Ha ltac:(lia)) as (_ & H1 & _).
  destruct (clamp_long_bounds 12 0 10) as [Hb _].
  destruct (Hb ltac:(lia)) as (_ & _ & _ & H2).
  destruct (clamp_long_bounds (-3) 0 10) as [Hc _].
  destruct (Hc ltac:(lia)) as (_ & _ & H3 & _).
  destruct (clamp_long_bounds 5 10 0) as [_ H4].
  split; [apply H1; lia|]. split; [apply H2; lia|].
  split; [apply H3; lia|apply H4; lia].
Defined.

(** 2.5 and -1e10 (as an integer-valued double). *)
Lemma clamp_int_double_total_witness :
  clamp_int (Double.of_bits 5 (-1)) = Some 2
  /\ clamp_int (Double.of_Z (-10000000000)) = Some INT_MIN.
Proof.
  split.
  - destruct (clamp_int_double_total (Double.of_bits 5 (-1)))
      as (n & Hc & _ & Ht & _).
    rewrite Hc. f_equal. exact (Ht 2 eq_refl).
  - destruct (clamp_int_double_total (Double.of_Z (-10000000000)))
      as (n & Hc & _ & Ht & _).
    rewrite Hc. f_equal. exact (Ht (-10000000000) eq_refl).
Defined.

Lemma GetPositionUm_reads_witness :
  GetPositionUm (fun _ => 614400) S754_nan Example.cooperative
    (set_deviceUnitsPerUm_ (Double.of_bits 12288 (-1)) Example.ready) []
  = Returns (DEVICE_OK, Double.of_Z 100)
      (set_deviceUnitsPerUm_ (Double.of_bits 12288 (-1)) Example.ready) []
  /\ GetPositionUm (fun _ => 7) S754_nan Example.cooperative
       (set_deviceUnitsPerUm_ (S754_zero false) Example.ready) []
     = Returns (DEVICE_OK, S754_infinity false)
         (set_deviceUnitsPerUm_ (S754_zero false) Example.ready) [].
Proof.
  split.
  - destruct (GetPositionUm_reads (fun _ => 614400) Example.cooperative
                (set_deviceUnitsPerUm_ (Double.of_bits 12288 (-1)) Example.ready)
                [] S754_nan) as (Hrun & _).
    rewrite (Hrun Example.drive1 eq_refl). reflexivity.
  - destruct (GetPositionUm_reads (fun _ => 7) Example.cooperative
                (set_deviceUnitsPerUm_ (S754_zero false) Example.ready)
                [] S754_nan) as (_ & _ & Hinf & _).
    exact (Hinf Example.drive1 false false 7881299347898368%positive (-50)
             eq_refl eq_refl eq_refl).
Defined.

Lemma OnPositionChange_reports_OK_witness :
  exists steps,
    Example2.OnPositionChange (fun _ => 0) (Double.of_Z 90) S754_nan AfterSet
      Example.rejecting Example.ready []
    = Returns (DEVICE_OK, None) Example.ready [CallMoveToPosition steps].
Proof.
  destruct (OnPositionChange_reports_OK Example.ERR_OFFSET Example.sizeof_long
              (fun _ => 0) Example.rejecting Example.ready []
              (Double.of_Z 90) S754_nan) as (_ & Hset & _).
  destruct (Hset Example.drive1 eq_refl) as (steps & _ & Hrej).
  exists steps. apply Hrej. cbn. lia.
Defined.

(** * Further properties: result codes, missing handle, names *)

Section MoreResults.

Variable ERR_OFFSET : Z.
Variable sizeof_long : Z.

(** X16. When the error offset lies above the range of [short] and the
    vendor codes fit in a [short], the result of Initialize is
    unambiguous: on an object that was not initialized it returns
    DEVICE_OK exactly if it ran to completion and set [initialized_]. *)
Theorem Initialize_OK_iff_completed
    (w : World) (this this1 : SingleAxisStage) (log log1 : Log) (r : Z) :
  initialized_ this = false ->
  32768 < ERR_OFFSET ->
  (forall t c, -32768 <= short_result w t c <= 32767) ->
  (forall t c, MakeConnection_result w t = Some c ->
               -32768 <= ConnectionError c <= 32767) ->
  Initialize ERR_OFFSET w this log = Returns r this1 log1 ->
  (r = DEVICE_OK <-> initialized_ this1 = true).
Proof.
  intros Hinit Hoff Hshort Hconn.
  destruct this as [? ? ? ? ? ? ? ? ? ? ? ? ?]; simp_run. subst.
  branches; intros [= <- <- <-]; simp_run;
    repeat match goal with
      | H : (_ =? _) = false |- _ => apply Z.eqb_neq in H
      | H : MakeConnection_result _ _ = Some _ |- _ => apply Hconn in H
      end;
    try (split; [reflexivity|reflexivity]);
    (split; intros Hr; [exfalso|discriminate Hr]);
    unfold DEVICE_OK, DEVICE_ERR in *;
    try match goal with
      | H : ERR_OFFSET + short_result ?w ?t ?c = 0 |- _ =>
          pose proof (Hshort t c)
      end;
    try lia; try congruence.
Qed.

(** X17. The motion methods do not check for a handle: on an object
    without one (as Shutdown leaves it) Home, SetPositionSteps and
    SetPositionUm dereference the empty handle before any call is
    made. *)
Theorem motion_without_handle
    (w : World) (this : SingleAxisStage) (log : Log) :
  motorDrive_ this = None ->
  Home ERR_OFFSET w this log = Crashes NullDereference log
  /\ (forall steps,
        SetPositionSteps ERR_OFFSET sizeof_long steps w this log
        = Crashes NullDereference log)
  /\ (forall pos,
        SetPositionUm ERR_OFFSET sizeof_long pos w this log
        = Crashes NullDereference log).
Proof.
  intros Hmd.
  assert (Hsteps : forall steps,
             SetPositionSteps ERR_OFFSET sizeof_long steps w this log
             = Crashes NullDereference log).
  { intros steps. unfold SetPositionSteps.
    destruct (sizeof_int <? sizeof_long);
      [rewrite clamp_int_long|cbn [static_cast_int Numeric_long]];
      unfold_methods; simp_run; now rewrite Hmd. }
  split; [|split; [exact Hsteps|]].
  - unfold_methods. simp_run. now rewrite Hmd.
  - intros pos.
    destruct (clamp_int_round_total (Double.mul pos (deviceUnitsPerUm_ this)))
      as (steps & Hc & _).
    rewrite (SetPositionUm_run ERR_OFFSET sizeof_long w this log pos steps Hc).
    apply Hsteps.
Qed.

End MoreResults.

Section Naming.

Lemma append_cancel_l (a b c : string) :
  (a ++ b = a ++ c)%string -> b = c.
Proof.
  induction a as [|x a IH]; cbn; [trivial|].
  intros [= H]. now apply IH.
Qed.

Lemma append_nil_r (a : string) : (a ++ EmptyString)%string = a.
Proof. induction a as [|x a IH]; cbn; [reflexivity|now rewrite IH]. Qed.

Lemma append_assoc (a b c : string) :
  ((a ++ b) ++ c = a ++ (b ++ c))%string.
Proof. induction a as [|x a IH]; cbn; [reflexivity|now rewrite IH]. Qed.

Lemma to_string_inj (n m : Z) : to_string n = to_string m -> n = m.
Proof.
  unfold to_string. intros H.
  assert (Hnil : forall z, Z.to_int z <> Decimal.Pos Decimal.Nil
                           /\ Z.to_int z <> Decimal.Neg Decimal.Nil).
  { intros [|p|p]; cbn; split; try discriminate;
      intros [= E]; now apply (DecimalPos.Unsigned.to_uint_nonnil p). }
  apply (f_equal NilZero.int_of_string) in H.
  rewrite !NilZero.isi in H by apply Hnil.
  injection H as H.
  rewrite <- (DecimalZ.of_to n), <- (DecimalZ.of_to m). now rewrite H.
Qed.


(** X19. Synthesised names tell the channels of one device apart: for
    the same drive, model and serial number, two different channel
    numbers of which at least one is positive give different names.
    (Channels that are both zero or negative give the same name: the
    suffix is omitted.) *)
Theorem MakeName_distinguishes_channels
    (this this' : SingleAxisStage) (motorDrive : option MotorDrive)
    (modelNo : string) :
  serialNo_ this' = serialNo_ this ->
  (channel_ this <> channel_ this' ->
   0 < channel_ this \/ 0 < channel_ this' ->
   MakeName this motorDrive modelNo <> MakeName this' motorDrive modelNo)
  /\ (channel_ this <= 0 -> channel_ this' <= 0 ->
      MakeName this motorDrive modelNo = MakeName this' motorDrive modelNo).
Proof.
  intros Hsn. unfold MakeName. rewrite Hsn.
  set (stem := ((match motorDrive with
                 | Some md =>
                     if IsValid (GetConnection md) then (EmptyString ++ modelNo)%string
                     else ((EmptyString ++ "Error") ++
                           to_string (ConnectionError (GetConnection md)))%string
                 | None => (EmptyString ++ "Error")%string
                 end ++ "_") ++ serialNo_ this)%string).
  split.
  - intros Hne Hpos.
    destruct (Z.ltb_spec 0 (channel_ this)); destruct (Z.ltb_spec 0 (channel_ this'));
      try lia; intros E.
    + rewrite !append_assoc in E.
      apply append_cancel_l in E. cbn in E. injection E as E.
      apply to_string_inj in E. contradiction.
    + rewrite append_assoc in E.
      rewrite <- (append_nil_r stem) in E at 2.
      apply append_cancel_l in E. discriminate E.
    + rewrite append_assoc in E.
      rewrite <- (append_nil_r stem) in E at 1.
      apply append_cancel_l in E. discriminate E.
  - intros H1 H2.
    destruct (Z.ltb_spec 0 (channel_ this)); destruct (Z.ltb_spec 0 (channel_ this'));
      try lia; reflexivity.
Qed.

End Naming.

Lemma Initialize_OK_iff_completed_witness :
  exists this1 log1,
    Initialize 40000 Example.cooperative Example.fresh []
    = Returns DEVICE_OK this1 log1
    /\ initialized_ this1 = true.
Proof.
  destruct (Initialize 40000 Example.cooperative Example.fresh [])
    as [r this1 log1|u l] eqn:E; [|vm_compute in E; discriminate E].
  assert (Hr : r = DEVICE_OK) by (vm_compute in E; now injection E as <- _ _).
  subst r. exists this1, log1. split; [reflexivity|].
  apply (Initialize_OK_iff_completed 40000 Example.cooperative Example.fresh
           this1 [] log1 DEVICE_OK).
  - reflexivity.
  - lia.
  - intros t c. cbn. lia.
  - intros t c [= <-]. cbn. lia.
  - exact E.
  - reflexivity.
Defined.

Lemma motion_without_handle_witness :
  Example.Home Example.cooperative Example2.after_cycle []
  = Crashes NullDereference []
  /\ Example.SetPositionUm (Double.of_Z 90) Example.cooperative
       Example2.after_cycle []
     = Crashes NullDereference [].
Proof.
  destruct (motion_without_handle Example.ERR_OFFSET Example.sizeof_long
              Example.cooperative Example2.after_cycle [] eq_refl)
    as (Hhome & _ & Hmove).
  split; [exact Hhome|exact (Hmove (Double.of_Z 90))].
Defined.


Lemma MakeName_distinguishes_channels_witness :
  MakeName Example.fresh (Some Example.drive1) "BSC202"
  <> MakeName Example2.second_channel (Some Example.drive1) "BSC202".
Proof.
  destruct (MakeName_distinguishes_channels Example.fresh Example2.second_channel
              (Some Example.drive1) "BSC202" eq_refl) as (Hdiff & _).
  apply Hdiff.
  - cbn. lia.
  - left. cbn. lia.
Defined.
